(** * Air-quality node (ESP8266 sketch): acquisition and publish pipeline

    A shallow embedding of [src/utils/sketch_esp8826.ino]: the four sensor
    read routines, the JSON message assembly of [publishJson], the broker
    session routine [mqttConnect] and the cooperative [loop] with its
    10 s timer.  Hardware and library calls are events of a trace; what the
    devices answer comes from an environment of oracles. *)

From Stdlib Require Import ZArith List Bool Lia String Ascii DecimalString.
From Stdlib Require Import Floats.SpecFloat.
Import ListNotations.

Local Open Scope Z_scope.

(** ** Machine arithmetic *)

(** [unsigned long] and [uint32_t] on the ESP8266: 32 bits, wrap-around. *)
Module UInt32.

Definition modulus : Z := 2 ^ 32.

Definition wrap (z : Z) : Z := z mod modulus.

Definition add (a b : Z) : Z := wrap (a + b).

Definition sub (a b : Z) : Z := wrap (a - b).

End UInt32.

(** IEEE-754 binary formats, on the Standard Library's executable
    specification [spec_float]. *)
Module IEEE.

Section Format.

Variables prec emax : Z.

(** Conversion of an [int] (round to nearest even). *)
Definition of_int (z : Z) : spec_float := binary_normalize prec emax z 0 false.

(** The decimal literal [n / 10^k], correctly rounded. *)
Definition of_decimal (n : Z) (k : nat) : spec_float :=
  SFdiv prec emax (of_int n) (of_int (10 ^ Z.of_nat k)).

End Format.

(** C's [<] and [>]: false as soon as one side is NaN. *)
Definition lt (x y : spec_float) : bool := SFltb x y.

Definition gt (x y : spec_float) : bool := SFltb y x.

Definition isfinite (x : spec_float) : bool :=
  match x with
  | S754_zero _ | S754_finite _ _ _ => true
  | S754_infinity _ | S754_nan => false
  end.

End IEEE.

(** [float]: binary32. *)
Module F32.

Definition prec : Z := 24.
Definition emax : Z := 128.
Definition t : Type := spec_float.
Definition of_int : Z -> t := IEEE.of_int prec emax.
Definition of_decimal : Z -> nat -> t := IEEE.of_decimal prec emax.
Definition add : t -> t -> t := SFadd prec emax.
Definition div : t -> t -> t := SFdiv prec emax.
Definition lt : t -> t -> bool := IEEE.lt.
Definition gt : t -> t -> bool := IEEE.gt.
Definition isfinite : t -> bool := IEEE.isfinite.
Definition NAN : t := S754_nan.

End F32.

(** [double]: binary64. *)
Module F64.

Definition prec : Z := 53.
Definition emax : Z := 1024.
Definition t : Type := spec_float.
Definition of_int : Z -> t := IEEE.of_int prec emax.
Definition of_decimal : Z -> nat -> t := IEEE.of_decimal prec emax.

End F64.

(** ** Text and stack buffers *)

Local Open Scope string_scope.

Definition NUL : ascii := "000"%char.
Definition SPACE : ascii := "032"%char.
Definition DQUOTE : ascii := "034"%char.
Definition BACKSLASH : ascii := "092"%char.

Definition chars (s : string) : list ascii := list_ascii_of_string s.

(** [s] between double quotes. *)
Definition quoted (s : string) : string :=
  String DQUOTE (s ++ String DQUOTE "").

(** A [char buf[N]]: a list of [N] bytes.  [const char*] reads stop at the
    first NUL; a read that finds none inside the array runs past its end,
    which has no defined result ([None]). *)
Fixpoint c_str (buf : list ascii) : option string :=
  match buf with
  | [] => None
  | c :: rest =>
      if Ascii.eqb c NUL then Some ""
      else option_map (String c) (c_str rest)
  end.

(** The first [n] bytes of a buffer, as passed with an explicit length. *)
Definition bytes (n : nat) (buf : list ascii) : string :=
  string_of_list_ascii (firstn n buf).

(** [buf[i] = c] for [i] inside the array. *)
Fixpoint poke (i : nat) (c : ascii) (buf : list ascii) : list ascii :=
  match buf, i with
  | [], _ => []
  | _ :: rest, O => c :: rest
  | b :: rest, S j => b :: poke j c rest
  end.

(** ** ArduinoJson documents *)

Module Json.

#[local] Set Warnings "-register-all".

Inductive value : Type :=
| Null
| Bool (b : bool)
| Int (z : Z)
| Float (f : spec_float)
| Str (s : string)
| Array (items : list value)
| Object (members : list (string * value)).

(** [obj["k"] = v]: the member is replaced when the key is present and
    appended otherwise. *)
Fixpoint set (k : string) (v : value) (members : list (string * value))
  : list (string * value) :=
  match members with
  | [] => [(k, v)]
  | (k', v') :: rest =>
      if String.eqb k k' then (k, v) :: rest else (k', v') :: set k v rest
  end.

(** [array.createNestedObject()] followed by the assignments that fill it:
    the object lands at the end of the array. *)
Definition push (item : value) (items : list value) : list value :=
  (items ++ [item])%list.

(** The two-character escapes of the text writer. *)
Definition escape_char (c : ascii) : string :=
  if Ascii.eqb c DQUOTE then String BACKSLASH (String DQUOTE "")
  else if Ascii.eqb c BACKSLASH then String BACKSLASH (String BACKSLASH "")
  else if Ascii.eqb c "008"%char then String BACKSLASH "b"
  else if Ascii.eqb c "012"%char then String BACKSLASH "f"
  else if Ascii.eqb c "010"%char then String BACKSLASH "n"
  else if Ascii.eqb c "013"%char then String BACKSLASH "r"
  else if Ascii.eqb c "009"%char then String BACKSLASH "t"
  else String c "".

Fixpoint escape (s : string) : string :=
  match s with
  | EmptyString => ""
  | String c rest => escape_char c ++ escape rest
  end.

Definition write_string (s : string) : string := quoted (escape s).

Definition write_int (z : Z) : string := NilZero.string_of_int (Z.to_int z).

Section Writer.

(** The library's rendering of a floating-point number; its digits are the
    library's business and stay a parameter. *)
Variable writeFloat : spec_float -> string.

(** Compact output, members in insertion order. *)
Fixpoint write (v : value) : string :=
  match v with
  | Null => "null"
  | Bool true => "true"
  | Bool false => "false"
  | Int z => write_int z
  | Float f => writeFloat f
  | Str s => write_string s
  | Array items =>
      let fix elems (first : bool) (xs : list value) : string :=
        match xs with
        | [] => ""
        | x :: rest => (if first then "" else ",") ++ write x ++ elems false rest
        end in
      "[" ++ elems true items ++ "]"
  | Object members =>
      let fix fields (first : bool) (ms : list (string * value)) : string :=
        match ms with
        | [] => ""
        | (k, x) :: rest =>
            (if first then "" else ",") ++ write_string k ++ ":" ++ write x
            ++ fields false rest
        end in
      "{" ++ fields true members ++ "}"
  end.

(** [serializeJson(doc, buf)] with [char buf[N]]: the writer stores at most
    [N] bytes and drops the rest without a word; the result is the number
    of bytes stored, and a terminator follows them when there is room. *)
Definition serializeJson (doc : value) (buf : list ascii) : nat * list ascii :=
  let N := List.length buf in
  let written := firstn N (chars (write doc)) in
  let n := List.length written in
  (n, if (n <? N)%nat then (written ++ NUL :: skipn (S n) buf)%list else written).

End Writer.

End Json.

Local Open Scope Z_scope.

(** ** Configuration constants of the sketch *)

Definition MQTT_HOST : string := "0.tcp.ngrok.io".
Definition MQTT_PORT : Z := 11573.
Definition MQTT_USER : string := "user".
Definition MQTT_PASSWD : string := "password".
Definition MQTT_CLIENT : string := "esp8266-airclient".
Definition MQTT_TOPIC_UP : string := "device/messages".
Definition MQTT_TOPIC_STATUS : string := "device/status".
Definition USER_UUID : string := "1".

(** ** Devices, environment and world *)

(** What [sds.readPm()] hands back. *)
Record PmResult : Type := { isOk : bool; pm25 : F32.t }.

(** What the TinyGPSPlus decoder reports of its location when polled:
    [gps.location.isValid()], [.age()] (a [uint32_t], in ms), [.lat()] and
    [.lng()]. *)
Record GpsLocation : Type :=
  { isValid : bool; age : Z; lat : F64.t; lng : F64.t }.

Inductive Port : Type := GpsSerial | MhzSerial | SdsSerial.

(** Calls that leave the sketch, in the order they are made. *)
Inductive Event : Type :=
| Listen (port : Port)
| EepromPut (text : string)
| Delay (ms : Z)
| MhzGetCO2
| SdsReadPm
| SdsWakeup
| SdsSetActiveReportingMode
| SdsSetContinuousWorkingPeriod
| DallasSetResolution (bits : Z)
| DallasSetWaitForConversion (flag : bool)
| DallasRequestTemperatures
| DallasGetTempCByIndex (index : Z)
| MqttSetServer (host : string) (port : Z)
| MqttConnect (id user pass willTopic : string) (willQos : Z)
    (willRetain : bool) (willMessage : option string) (ok : bool)
| MqttPublish (topic payload : string) (retained ok : bool)
| MqttLoop
| ServerHandleClient
| GpsFeed
| SerialPrint (text : string)
| SerialPrintf (format : string) (arg : Z)
| SerialPrintln (text : option string).

(** The answers of the outside world.  Each oracle is indexed by the number
    of earlier calls of its kind. *)
Record Env : Type :=
  { mhz_getCO2 : nat -> Z;
    sds_readPm : nat -> PmResult;
    dallas_getTempC : nat -> F32.t;
    gps_encode : nat -> GpsLocation -> GpsLocation;
    broker_accepts : nat -> bool;
    mqtt_state : nat -> Z;
    broker_takes : nat -> bool;
    http_post : nat -> option string;
    iso8601LocalNow : Z -> string;
    stack : nat -> ascii;
    writeFloat : spec_float -> string }.

(** The sketch's globals, the devices' cursors and the trace so far. *)
Record World : Type :=
  { now : Z;
    gps : GpsLocation;
    listening : option Port;
    mhz_reads : nat;
    sds_reads : nat;
    dallas_reads : nat;
    gps_feeds : nat;
    http_polls : nat;
    mqtt_connected : bool;
    mqtt_attempts : nat;
    mqtt_publishes : nat;
    LOCATION : string;
    t0 : Z;
    trace : list Event }.

Definition log (e : Event) (w : World) : World :=
  {| now := now w; gps := gps w; listening := listening w;
     mhz_reads := mhz_reads w; sds_reads := sds_reads w;
     dallas_reads := dallas_reads w; gps_feeds := gps_feeds w;
     http_polls := http_polls w; mqtt_connected := mqtt_connected w;
     mqtt_attempts := mqtt_attempts w; mqtt_publishes := mqtt_publishes w;
     LOCATION := LOCATION w; t0 := t0 w; trace := (trace w ++ [e])%list |}.

Definition set_now (t : Z) (w : World) : World :=
  {| now := t; gps := gps w; listening := listening w;
     mhz_reads := mhz_reads w; sds_reads := sds_reads w;
     dallas_reads := dallas_reads w; gps_feeds := gps_feeds w;
     http_polls := http_polls w; mqtt_connected := mqtt_connected w;
     mqtt_attempts := mqtt_attempts w; mqtt_publishes := mqtt_publishes w;
     LOCATION := LOCATION w; t0 := t0 w; trace := trace w |}.

Definition set_t0 (t : Z) (w : World) : World :=
  {| now := now w; gps := gps w; listening := listening w;
     mhz_reads := mhz_reads w; sds_reads := sds_reads w;
     dallas_reads := dallas_reads w; gps_feeds := gps_feeds w;
     http_polls := http_polls w; mqtt_connected := mqtt_connected w;
     mqtt_attempts := mqtt_attempts w; mqtt_publishes := mqtt_publishes w;
     LOCATION := LOCATION w; t0 := t; trace := trace w |}.

Definition set_listening (p : Port) (w : World) : World :=
  {| now := now w; gps := gps w; listening := Some p;
     mhz_reads := mhz_reads w; sds_reads := sds_reads w;
     dallas_reads := dallas_reads w; gps_feeds := gps_feeds w;
     http_polls := http_polls w; mqtt_connected := mqtt_connected w;
     mqtt_attempts := mqtt_attempts w; mqtt_publishes := mqtt_publishes w;
     LOCATION := LOCATION w; t0 := t0 w; trace := trace w |}.

Definition set_LOCATION (loc : string) (w : World) : World :=
  {| now := now w; gps := gps w; listening := listening w;
     mhz_reads := mhz_reads w; sds_reads := sds_reads w;
     dallas_reads := dallas_reads w; gps_feeds := gps_feeds w;
     http_polls := http_polls w; mqtt_connected := mqtt_connected w;
     mqtt_attempts := mqtt_attempts w; mqtt_publishes := mqtt_publishes w;
     LOCATION := loc; t0 := t0 w; trace := trace w |}.

Definition next_mhz (w : World) : World :=
  {| now := now w; gps := gps w; listening := listening w;
     mhz_reads := S (mhz_reads w); sds_reads := sds_reads w;
     dallas_reads := dallas_reads w; gps_feeds := gps_feeds w;
     http_polls := http_polls w; mqtt_connected := mqtt_connected w;
     mqtt_attempts := mqtt_attempts w; mqtt_publishes := mqtt_publishes w;
     LOCATION := LOCATION w; t0 := t0 w; trace := trace w |}.

Definition next_sds (w : World) : World :=
  {| now := now w; gps := gps w; listening := listening w;
     mhz_reads := mhz_reads w; sds_reads := S (sds_reads w);
     dallas_reads := dallas_reads w; gps_feeds := gps_feeds w;
     http_polls := http_polls w; mqtt_connected := mqtt_connected w;
     mqtt_attempts := mqtt_attempts w; mqtt_publishes := mqtt_publishes w;
     LOCATION := LOCATION w; t0 := t0 w; trace := trace w |}.

Definition next_dallas (w : World) : World :=
  {| now := now w; gps := gps w; listening := listening w;
     mhz_reads := mhz_reads w; sds_reads := sds_reads w;
     dallas_reads := S (dallas_reads w); gps_feeds := gps_feeds w;
     http_polls := http_polls w; mqtt_connected := mqtt_connected w;
     mqtt_attempts := mqtt_attempts w; mqtt_publishes := mqtt_publishes w;
     LOCATION := LOCATION w; t0 := t0 w; trace := trace w |}.

Definition next_poll (w : World) : World :=
  {| now := now w; gps := gps w; listening := listening w;
     mhz_reads := mhz_reads w; sds_reads := sds_reads w;
     dallas_reads := dallas_reads w; gps_feeds := gps_feeds w;
     http_polls := S (http_polls w); mqtt_connected := mqtt_connected w;
     mqtt_attempts := mqtt_attempts w; mqtt_publishes := mqtt_publishes w;
     LOCATION := LOCATION w; t0 := t0 w; trace := trace w |}.

Definition fed (g : GpsLocation) (w : World) : World :=
  {| now := now w; gps := g; listening := listening w;
     mhz_reads := mhz_reads w; sds_reads := sds_reads w;
     dallas_reads := dallas_reads w; gps_feeds := S (gps_feeds w);
     http_polls := http_polls w; mqtt_connected := mqtt_connected w;
     mqtt_attempts := mqtt_attempts w; mqtt_publishes := mqtt_publishes w;
     LOCATION := LOCATION w; t0 := t0 w; trace := trace w |}.

Definition attempted (ok : bool) (w : World) : World :=
  {| now := now w; gps := gps w; listening := listening w;
     mhz_reads := mhz_reads w; sds_reads := sds_reads w;
     dallas_reads := dallas_reads w; gps_feeds := gps_feeds w;
     http_polls := http_polls w; mqtt_connected := ok;
     mqtt_attempts := S (mqtt_attempts w);
     mqtt_publishes := mqtt_publishes w; LOCATION := LOCATION w; t0 := t0 w;
     trace := trace w |}.

Definition next_publish (w : World) : World :=
  {| now := now w; gps := gps w; listening := listening w;
     mhz_reads := mhz_reads w; sds_reads := sds_reads w;
     dallas_reads := dallas_reads w; gps_feeds := gps_feeds w;
     http_polls := http_polls w; mqtt_connected := mqtt_connected w;
     mqtt_attempts := mqtt_attempts w;
     mqtt_publishes := S (mqtt_publishes w); LOCATION := LOCATION w;
     t0 := t0 w; trace := trace w |}.

(** ** The state monad of the sketch *)

Definition M (A : Type) : Type := World -> A * World.

Definition ret {A : Type} (a : A) : M A := fun w => (a, w).

Definition bind {A B : Type} (m : M A) (k : A -> M B) : M B :=
  fun w => let (a, w') := m w in k a w'.

Declare Scope sketch_scope.
Delimit Scope sketch_scope with sketch.
Notation "x <- m ;; k" := (bind m (fun x => k))
  (at level 61, m at next level, right associativity) : sketch_scope.
Notation "m ;; k" := (bind m (fun _ => k))
  (at level 61, right associativity) : sketch_scope.
Local Open Scope sketch_scope.

Definition emit (e : Event) : M unit := fun w => (tt, log e w).

(** [port.listen()]: the one software serial port that receives. *)
Definition listen (p : Port) : M unit :=
  fun w => (tt, log (Listen p) (set_listening p w)).

(** [millis()]. *)
Definition millis : M Z := fun w => (now w, w).

(** [delay(ms)]: the clock moves on by [ms]. *)
Definition delay (ms : Z) : M unit :=
  fun w => (tt, log (Delay ms) (set_now (UInt32.add (now w) ms) w)).

Section Sketch.

Variable env : Env.

(** *** Sensor reads *)

(** GPS (non blocking): [lat] and [lon] are the caller's variables, written
    only on a fresh fix. *)
Definition readGPS (lat0 lon0 : F64.t) : M (bool * F64.t * F64.t) :=
  fun w =>
    if isValid (gps w) && (age (gps w) <? 3000)
    then ((true, lat (gps w), lng (gps w)), w)
    else ((false, lat0, lon0), w).

Definition mhz_read : M Z :=
  fun w => (mhz_getCO2 env (mhz_reads w), log MhzGetCO2 (next_mhz w)).

(** CO2 (MH-Z19B). *)
Definition readCO2 : M Z :=
  listen MhzSerial ;;
  co2 <- mhz_read ;;
  ret (if (0 <? co2) && (co2 <? 10000) then co2 else -1).

Definition sds_read : M PmResult :=
  fun w => (sds_readPm env (sds_reads w), log SdsReadPm (next_sds w)).

(** The [for] loop of [readPM25], [n] iterations left. *)
Fixpoint readPM25_loop (n : nat) (v : F32.t) : M F32.t :=
  match n with
  | O => ret v
  | S n' =>
      if F32.isfinite v then ret v
      else
        pm <- sds_read ;;
        delay 200 ;;
        readPM25_loop n' (if isOk pm then pm25 pm else v)
  end.

(** PM2.5 (SDS011). *)
Definition readPM25 : M F32.t :=
  listen SdsSerial ;;
  v <- readPM25_loop 4 F32.NAN ;;
  v <- (if F32.isfinite v then ret v
        else
          emit SdsWakeup ;;
          delay 800 ;;
          emit SdsSetActiveReportingMode ;;
          emit SdsSetContinuousWorkingPeriod ;;
          pm <- sds_read ;;
          ret (if isOk pm then pm25 pm else v)) ;;
  ret (if F32.isfinite v then v else F32.of_int (-1)).

Definition dallas_read : M F32.t :=
  fun w =>
    (dallas_getTempC env (dallas_reads w),
     log (DallasGetTempCByIndex 0) (next_dallas w)).

(** The [for] loop of [readTemperatureC], [n] iterations left. *)
Fixpoint readTemperatureC_loop (n : nat) (acc : F32.t) (ok : Z)
  : M (F32.t * Z) :=
  match n with
  | O => ret (acc, ok)
  | S n' =>
      emit DallasRequestTemperatures ;;
      t <- dallas_read ;;
      if F32.gt t (F32.of_int (-55)) && F32.lt t (F32.of_int 125)
      then readTemperatureC_loop n' (F32.add acc t) (ok + 1)
      else readTemperatureC_loop n' acc ok
  end.

(** Temperature (DS18B20). *)
Definition readTemperatureC : M F32.t :=
  emit (DallasSetResolution 12) ;;
  emit (DallasSetWaitForConversion true) ;;
  r <- readTemperatureC_loop 3 (F32.of_int 0) 0 ;;
  let (acc, ok) := r in
  ret (if ok =? 0 then F32.of_int (-127) else F32.div acc (F32.of_int ok)).

(** *** Broker session *)

(** A local [char buf[N]] before anything is stored in it. *)
Definition fresh (N : nat) : list ascii := map (stack env) (seq 0 N).

(** [{"device": MQTT_CLIENT, "status": status}] as the sketch fills it. *)
Definition status_doc (status : string) : Json.value :=
  Json.Object
    (Json.set "status" (Json.Str status)
       (Json.set "device" (Json.Str MQTT_CLIENT) [])).

(** Lines 114-116: the will document, its buffer and the byte stored after
    the serialized text. *)
Definition willBuf : list ascii :=
  let (willLen, buf) :=
    Json.serializeJson (writeFloat env) (status_doc "offline") (fresh 160) in
  let willLen := if (160 <=? willLen)%nat then (160 - 1)%nat else willLen in
  poke willLen SPACE buf.

(** [mqtt.connect(id, user, pass, willTopic, willQos, willRetain, willMessage)]. *)
Definition mqtt_connect (willMessage : option string) : M bool :=
  fun w =>
    let ok := broker_accepts env (mqtt_attempts w) in
    (ok,
     log (MqttConnect MQTT_CLIENT MQTT_USER MQTT_PASSWD MQTT_TOPIC_STATUS 0
            true willMessage ok)
       (attempted ok w)).

(** [mqtt.publish(topic, payload, length, retained)]. *)
Definition mqtt_publish (topic payload : string) (retained : bool) : M bool :=
  fun w =>
    let ok := mqtt_connected w && broker_takes env (mqtt_publishes w) in
    (ok, log (MqttPublish topic payload retained ok) (next_publish w)).

(** The birth message, lines 129-131. *)
Definition publish_birth : M bool :=
  let (n, birthBuf) :=
    Json.serializeJson (writeFloat env) (status_doc "online") (fresh 160) in
  mqtt_publish MQTT_TOPIC_STATUS (bytes n birthBuf) true.

(** One pass of the body of [while (!mqtt.connected())]. *)
Definition mqttConnect_attempt : M unit :=
  emit (SerialPrint "MQTT conectando...") ;;
  ok <- mqtt_connect (c_str willBuf) ;;
  if ok then
    emit (SerialPrintln (Some "OK")) ;;
    publish_birth ;;
    ret tt
  else
    rc <- (fun w => (mqtt_state env (mqtt_attempts w), w)) ;;
    emit (SerialPrintf "fail rc=%d, retry 5s" rc) ;;
    delay 5000.

(** The [while] loop; [fuel] bounds the number of passes, [None] when the
    broker has not accepted within them. *)
Fixpoint mqttConnect_loop (fuel : nat) (w : World) : option World :=
  if mqtt_connected w then Some w
  else
    match fuel with
    | O => None
    | S fuel' => mqttConnect_loop fuel' (snd (mqttConnect_attempt w))
    end.

Definition mqttConnect (fuel : nat) (w : World) : option World :=
  mqttConnect_loop fuel (log (MqttSetServer MQTT_HOST MQTT_PORT) w).

(** [if (!mqtt.connected()) mqttConnect();] *)
Definition ensure_connected (fuel : nat) (w : World) : option World :=
  if mqtt_connected w then Some w else mqttConnect fuel w.

(** *** Location label *)

Definition isspace (c : ascii) : bool :=
  let n := nat_of_ascii c in
  (n =? 32)%nat || ((9 <=? n)%nat && (n <=? 13)%nat).

Fixpoint trim_left (s : string) : string :=
  match s with
  | String c rest => if isspace c then trim_left rest else s
  | EmptyString => EmptyString
  end.

Fixpoint trim_right (s : string) : string :=
  match s with
  | EmptyString => EmptyString
  | String c rest =>
      match trim_right rest with
      | EmptyString => if isspace c then EmptyString else String c EmptyString
      | kept => String c kept
      end
  end.

(** [String::trim()]. *)
Definition trim (s : string) : string := trim_right (trim_left s).

(** [saveLocationToEEPROM]: the first 31 characters go to the store. *)
Definition saveLocationToEEPROM (loc : string) : M unit :=
  emit (EepromPut (substring 0 31 loc)).

(** [handleSet] on the argument of a POST to /set. *)
Definition handleSet (arg : string) : M unit :=
  let loc := trim arg in
  if (0 <? String.length loc)%nat
  then (fun w => (tt, set_LOCATION loc w)) ;; saveLocationToEEPROM loc
  else ret tt.

(** [server.handleClient()]: at most one pending request is served. *)
Definition server_handleClient : M unit :=
  emit ServerHandleClient ;;
  req <- (fun w => (http_post env (http_polls w), next_poll w)) ;;
  match req with
  | Some arg => handleSet arg
  | None => ret tt
  end.

(** *** Message assembly and publication *)

Record Readings : Type :=
  { haveGPS : bool; fix_lat : F64.t; fix_lon : F64.t;
    co2 : Z; pm : F32.t; temp : F32.t }.

(** Lines 230-233: the four channels, in source order. *)
Definition collect : M Readings :=
  g <- readGPS (F64.of_int (-1)) (F64.of_int (-1)) ;;
  c <- readCO2 ;;
  p <- readPM25 ;;
  t <- readTemperatureC ;;
  ret {| haveGPS := fst (fst g); fix_lat := snd (fst g); fix_lon := snd g;
         co2 := c; pm := p; temp := t |}.

(** One element of the metrics array. *)
Definition metric (name : string) (v : Json.value) : Json.value :=
  Json.Object
    (Json.set "value" v (Json.set "measurement" (Json.Str name) [])).

(** Lines 236-242. *)
Definition header (timeStamp location : string) : Json.value :=
  Json.Object
    (Json.set "shouldRequeue" (Json.Bool true)
    (Json.set "location" (Json.Str location)
    (Json.set "topic" (Json.Str MQTT_TOPIC_UP)
    (Json.set "timeStamp" (Json.Str timeStamp)
    (Json.set "deviceId" (Json.Str MQTT_CLIENT)
    (Json.set "userUUID" (Json.Str USER_UUID) [])))))).

(** Lines 244-249. *)
Definition metrics (r : Readings) : Json.value :=
  Json.Array
    (Json.push (metric "Lon"
       (Json.Float (if haveGPS r then fix_lon r else F64.of_int (-1))))
    (Json.push (metric "Lat"
       (Json.Float (if haveGPS r then fix_lat r else F64.of_int (-1))))
    (Json.push (metric "Temperature" (Json.Float (temp r)))
    (Json.push (metric "PM2.5" (Json.Float (pm r)))
    (Json.push (metric "CO2" (Json.Int (co2 r))) []))))).

(** The document of lines 235-249. *)
Definition message (timeStamp location : string) (r : Readings) : Json.value :=
  Json.Object
    (Json.set "metrics" (metrics r)
       (Json.set "header" (header timeStamp location) [])).

(** Lines 251-256: serialize into [char buf[900]], publish what was stored,
    report on the serial console. *)
Definition transmit (doc : Json.value) : M bool :=
  let (n, buf) := Json.serializeJson (writeFloat env) doc (fresh 900) in
  ok <- mqtt_publish MQTT_TOPIC_UP (bytes n buf) false ;;
  emit (SerialPrintln (Some "----- MQTT PUBLISH -----")) ;;
  emit (SerialPrintln (c_str buf)) ;;
  emit (SerialPrintln (Some
    (if ok then "[STATUS] Published OK" else "[STATUS] Publish FAILED"))) ;;
  ret ok.

(** [publishJson] from line 230 on. *)
Definition publish_cycle : M bool :=
  r <- collect ;;
  doc <- (fun w => (message (iso8601LocalNow env (now w)) (LOCATION w) r, w)) ;;
  transmit doc.

Definition publishJson (fuel : nat) (w : World) : option World :=
  match ensure_connected fuel w with
  | Some w1 => Some (snd (publish_cycle w1))
  | None => None
  end.

(** *** The cooperative loop *)

(** Lines 301-303: keep the GPS parser fed. *)
Definition feed_gps : M unit :=
  l <- (fun w => (listening w, w)) ;;
  match l with
  | Some GpsSerial => ret tt
  | _ => listen GpsSerial
  end ;;
  fun w => (tt, log GpsFeed (fed (gps_encode env (gps_feeds w) (gps w)) w)).

(** Lines 296-303. *)
Definition loop_service (fuel : nat) (w : World) : option World :=
  match ensure_connected fuel (snd (server_handleClient w)) with
  | Some w1 => Some (snd ((emit MqttLoop ;; feed_gps) w1))
  | None => None
  end.

(** Line 306: [millis() - t0 > 10000UL], in [unsigned long]. *)
Definition due (w : World) : bool :=
  10000 <? UInt32.sub (fst (millis w)) (t0 w).

(** Lines 305-309; [t0] is the [static] of [loop]. *)
Definition loop_timer (fuel : nat) (w : World) : option World :=
  if due w then
    match publishJson fuel w with
    | Some w1 => Some (set_t0 (fst (millis w1)) w1)
    | None => None
    end
  else Some w.

Definition loop (fuel : nat) (w : World) : option World :=
  match loop_service fuel w with
  | Some w1 => loop_timer fuel w1
  | None => None
  end.

End Sketch.

(** ** Observations on documents and traces *)

Fixpoint lookup (k : string) (members : list (string * Json.value))
  : option Json.value :=
  match members with
  | [] => None
  | (k', v) :: rest => if String.eqb k k' then Some v else lookup k rest
  end.

(** [v[k]] when [v] is an object holding [k]. *)
Definition member (k : string) (v : Json.value) : option Json.value :=
  match v with
  | Json.Object members => lookup k members
  | _ => None
  end.

Definition named (name : string) (m : Json.value) : bool :=
  match member "measurement" m with
  | Some (Json.Str s) => String.eqb s name
  | _ => false
  end.

(** The value of the entry of the metrics array called [name]. *)
Definition measurement (name : string) (doc : Json.value)
  : option Json.value :=
  match member "metrics" doc with
  | Some (Json.Array items) =>
      match find (named name) items with
      | Some m => member "value" m
      | None => None
      end
  | _ => None
  end.

(** The document a publish cycle started in [w] assembles. *)
Definition assembled (env : Env) (w : World) : Json.value :=
  let (r, w') := collect env w in
  message (iso8601LocalNow env (now w')) (LOCATION w') r.

(** Payloads handed to [mqtt.publish] on the data topic, oldest first. *)
Fixpoint published (tr : list Event) : list string :=
  match tr with
  | [] => []
  | MqttPublish topic payload _ _ :: rest =>
      if String.eqb topic MQTT_TOPIC_UP then payload :: published rest
      else published rest
  | _ :: rest => published rest
  end.

(** ** A test bench *)

(** Every device answers at once with the values of the specification's
    round-trip example, the broker accepts and takes everything; numbers
    are rendered by a stand-in. *)
Definition bench : Env :=
  {| mhz_getCO2 := fun _ => 412;
     sds_readPm := fun _ => {| isOk := true; pm25 := F32.of_decimal 83 1 |};
     dallas_getTempC := fun _ => F32.of_decimal 241 1;
     gps_encode := fun _ g => g;
     broker_accepts := fun _ => true;
     mqtt_state := fun _ => 0;
     broker_takes := fun _ => true;
     http_post := fun _ => None;
     iso8601LocalNow := fun _ => "2025-01-01T00:00:00.000000-05:00";
     stack := fun _ => NUL;
     writeFloat := fun _ => "0" |}.

Definition no_fix : GpsLocation :=
  {| isValid := false; age := 4294967295;
     lat := F64.of_int 0; lng := F64.of_int 0 |}.

(** A fix at the coordinates of the round-trip example, [a] ms old. *)
Definition fix_aged (a : Z) : GpsLocation :=
  {| isValid := true; age := a;
     lat := F64.of_decimal 71193 4; lng := F64.of_decimal (-731227) 4 |}.

(** The world as [setup] leaves it, up to the broker session. *)
Definition boot : World :=
  {| now := 0; gps := no_fix; listening := Some SdsSerial;
     mhz_reads := 0; sds_reads := 0; dallas_reads := 0; gps_feeds := 0;
     http_polls := 0; mqtt_connected := false; mqtt_attempts := 0;
     mqtt_publishes := 0; LOCATION := "Device test"; t0 := 0; trace := [] |}.

Definition with_gps (g : GpsLocation) (w : World) : World :=
  {| now := now w; gps := g; listening := listening w;
     mhz_reads := mhz_reads w; sds_reads := sds_reads w;
     dallas_reads := dallas_reads w; gps_feeds := gps_feeds w;
     http_polls := http_polls w; mqtt_connected := mqtt_connected w;
     mqtt_attempts := mqtt_attempts w; mqtt_publishes := mqtt_publishes w;
     LOCATION := LOCATION w; t0 := t0 w; trace := trace w |}.

(** The bench with another particulate sensor, temperature probe or
    configuration client. *)
Definition with_sds (f : nat -> PmResult) (e : Env) : Env :=
  {| mhz_getCO2 := mhz_getCO2 e; sds_readPm := f;
     dallas_getTempC := dallas_getTempC e; gps_encode := gps_encode e;
     broker_accepts := broker_accepts e; mqtt_state := mqtt_state e;
     broker_takes := broker_takes e; http_post := http_post e;
     iso8601LocalNow := iso8601LocalNow e; stack := stack e;
     writeFloat := writeFloat e |}.

Definition with_dallas (f : nat -> F32.t) (e : Env) : Env :=
  {| mhz_getCO2 := mhz_getCO2 e; sds_readPm := sds_readPm e;
     dallas_getTempC := f; gps_encode := gps_encode e;
     broker_accepts := broker_accepts e; mqtt_state := mqtt_state e;
     broker_takes := broker_takes e; http_post := http_post e;
     iso8601LocalNow := iso8601LocalNow e; stack := stack e;
     writeFloat := writeFloat e |}.

Definition with_http (f : nat -> option string) (e : Env) : Env :=
  {| mhz_getCO2 := mhz_getCO2 e; sds_readPm := sds_readPm e;
     dallas_getTempC := dallas_getTempC e; gps_encode := gps_encode e;
     broker_accepts := broker_accepts e; mqtt_state := mqtt_state e;
     broker_takes := broker_takes e; http_post := f;
     iso8601LocalNow := iso8601LocalNow e; stack := stack e;
     writeFloat := writeFloat e |}.

(** A read the sensor did not answer, and one it answered with 8.3. *)
Definition pm_silent : PmResult := {| isOk := false; pm25 := F32.NAN |}.
Definition pm_8_3 : PmResult := {| isOk := true; pm25 := F32.of_decimal 83 1 |}.

(** ** Traces and the wire *)

(** An event other than a publication on the data topic. *)
Definition offline_event (e : Event) : Prop := published [e] = [].

(** [calm w w']: from [w] to [w'] nothing was published on the data topic,
    and the timer of [loop] and the location label were left alone. *)
Definition calm (w w' : World) : Prop :=
  published (trace w') = published (trace w)
  /\ t0 w' = t0 w
  /\ LOCATION w' = LOCATION w.

Definition calmM {A : Type} (m : M A) : Prop := forall w, calm w (snd (m w)).

(** What [transmit] hands to [mqtt.publish]. *)
Definition wire (env : Env) (doc : Json.value) : string :=
  let (n, buf) := Json.serializeJson (writeFloat env) doc (fresh env 900) in
  bytes n buf.

(** The events of lines 251-256 for a document [doc]. *)
Definition transmission (env : Env) (doc : Json.value) (ok : bool)
  : list Event :=
  let (n, buf) := Json.serializeJson (writeFloat env) doc (fresh env 900) in
  [ MqttPublish MQTT_TOPIC_UP (wire env doc) false ok;
    SerialPrintln (Some "----- MQTT PUBLISH -----");
    SerialPrintln (c_str buf);
    SerialPrintln (Some
      (if ok then "[STATUS] Published OK" else "[STATUS] Publish FAILED")) ].

(** ** The rules of the channels, in the specification's words *)

(** Temperature: samples outside the open band (-55, 125) are discarded,
    the rest are averaged, and -127 stands for no sample left. *)
Definition plausible (t : F32.t) : bool :=
  F32.gt t (F32.of_int (-55)) && F32.lt t (F32.of_int 125).

Definition mean_of_plausible (samples : list F32.t) : F32.t :=
  match filter plausible samples with
  | [] => F32.of_int (-127)
  | kept =>
      F32.div (fold_left F32.add kept (F32.of_int 0))
        (F32.of_int (Z.of_nat (List.length kept)))
  end.

(** Particulate: a reply the channel can use is a read that succeeded
    with a finite value. *)
Definition usable (r : PmResult) : bool := isOk r && F32.isfinite (pm25 r).

(** ** Events and worlds of single steps *)

(** One conversion and read, as the trace shows it. *)
Definition conversion : list Event :=
  [DallasRequestTemperatures; DallasGetTempCByIndex 0].

(** The world after one conversion and read. *)
Definition converted (w : World) : World :=
  log (DallasGetTempCByIndex 0) (next_dallas (log DallasRequestTemperatures w)).

(** One attempt of the [for] loop, as the trace shows it. *)
Definition attempt : list Event := [SdsReadPm; Delay 200].

(** The recovery sequence with its one read. *)
Definition recovery : list Event :=
  [ SdsWakeup; Delay 800; SdsSetActiveReportingMode;
    SdsSetContinuousWorkingPeriod; SdsReadPm ].

(** The world after one attempt. *)
Definition attempted_read (w : World) : World :=
  log (Delay 200)
    (set_now (UInt32.add (now w) 200) (log SdsReadPm (next_sds w))).

(** ** Status texts *)

(** The texts of the two status documents; they hold no number, so the
    number rendering plays no part. *)
Definition offline_text : string :=
  "{" ++ quoted "device" ++ ":" ++ quoted MQTT_CLIENT ++ ","
      ++ quoted "status" ++ ":" ++ quoted "offline" ++ "}".

Definition online_text : string :=
  "{" ++ quoted "device" ++ ":" ++ quoted MQTT_CLIENT ++ ","
      ++ quoted "status" ++ ":" ++ quoted "online" ++ "}".

(** ** Bench worlds and the tick harness *)

(** The world once the session is up on the bench. *)
Definition online : World :=
  match ensure_connected bench 1 boot with
  | Some w => w
  | None => boot
  end.

Fixpoint replicate (n : nat) (c : ascii) : string :=
  match n with
  | O => EmptyString
  | S n' => String c (replicate n' c)
  end.

(** A label of 400 backslashes, as a POST to /set can carry. *)
Definition long_label : string := replicate 400 BACKSLASH.

(** The world after [handleSet] took that label, session up. *)
Definition flooded : World := snd (handleSet long_label online).

(** A harness for [loop]: the clock is set to each tick time in turn; the
    result lists the ticks on which a message went out. *)
Fixpoint publish_ticks (env : Env) (fuel : nat) (ticks : list Z) (w : World)
  : option (list Z) :=
  match ticks with
  | [] => Some []
  | t :: rest =>
      match loop env fuel (set_now t w) with
      | None => None
      | Some w' =>
          let fired :=
            (List.length (published (trace w))
             <? List.length (published (trace w')))%nat in
          option_map (fun l => if fired then t :: l else l)
            (publish_ticks env fuel rest w')
      end
  end.

(** Tick times [0, step, 2 step, ...], [n] of them. *)
Definition ticks_every (step : Z) (n : nat) : list Z :=
  map (fun i => step * Z.of_nat i) (seq 0 n).

(** ** The footprint of the sensor phase *)

(** The clock reads [t'] when [d] ms of [delay] have followed a reading of
    [t]. *)
Definition moved (d t t' : Z) : Prop :=
  (d = 0 /\ t' = t) \/ t' = UInt32.wrap (t + d).

(** [steady w w']: the decoder, the web cursor, the session, the label and
    the timer of [loop] are in [w'] as they were in [w]. *)
Definition steady (w w' : World) : Prop :=
  gps w' = gps w
  /\ gps_feeds w' = gps_feeds w
  /\ http_polls w' = http_polls w
  /\ mqtt_connected w' = mqtt_connected w
  /\ mqtt_attempts w' = mqtt_attempts w
  /\ mqtt_publishes w' = mqtt_publishes w
  /\ LOCATION w' = LOCATION w
  /\ t0 w' = t0 w.

(** Calls on the sensors and their ports, and waits. *)
Definition sensor_traffic (e : Event) : bool :=
  match e with
  | Listen _ | Delay _ | MhzGetCO2 | SdsReadPm | SdsWakeup
  | SdsSetActiveReportingMode | SdsSetContinuousWorkingPeriod
  | DallasSetResolution _ | DallasSetWaitForConversion _
  | DallasRequestTemperatures | DallasGetTempCByIndex _ => true
  | _ => false
  end.

(** [sensed a b c d w w']: from [w] to [w'] the CO2 sensor was read [a]
    times, the particulate sensor [b] times and the probe [c] times, [d] ms
    were spent in [delay], nothing but sensor traffic was logged, and the
    rest is steady. *)
Definition sensed (a b c : nat) (d : Z) (w w' : World) : Prop :=
  steady w w'
  /\ mhz_reads w' = (mhz_reads w + a)%nat
  /\ sds_reads w' = (sds_reads w + b)%nat
  /\ dallas_reads w' = (dallas_reads w + c)%nat
  /\ moved d (now w) (now w')
  /\ exists evs,
       trace w' = (trace w ++ evs)%list /\ forallb sensor_traffic evs = true.

(** The time [readPM25] spends in [delay] when it makes [b] reads: 200 ms
    after each of the first four, 800 ms before a fifth. *)
Definition pm_wait (b : nat) : Z :=
  if (b <=? 4)%nat then 200 * Z.of_nat b else 1600.

(** Payloads the broker took on the data topic, oldest first. *)
Fixpoint delivered (tr : list Event) : list string :=
  match tr with
  | [] => []
  | MqttPublish topic payload _ true :: rest =>
      if String.eqb topic MQTT_TOPIC_UP then payload :: delivered rest
      else delivered rest
  | _ :: rest => delivered rest
  end.

(** ** Events of the session routine *)

(** A refused attempt, the [n]-th connect of the client. *)
Definition refused_attempt (env : Env) (n : nat) : list Event :=
  [ SerialPrint "MQTT conectando...";
    MqttConnect MQTT_CLIENT MQTT_USER MQTT_PASSWD MQTT_TOPIC_STATUS 0 true
      (c_str (willBuf env)) false;
    SerialPrintf "fail rc=%d, retry 5s" (mqtt_state env (S n));
    Delay 5000 ].

(** [k] refused attempts in a row, from the [n]-th connect on. *)
Fixpoint refused_attempts (env : Env) (n k : nat) : list Event :=
  match k with
  | O => []
  | S k' => (refused_attempt env n ++ refused_attempts env (S n) k')%list
  end.

(** The accepted attempt with its birth message. *)
Definition accepted_attempt (env : Env) (birth_ok : bool) : list Event :=
  [ SerialPrint "MQTT conectando...";
    MqttConnect MQTT_CLIENT MQTT_USER MQTT_PASSWD MQTT_TOPIC_STATUS 0 true
      (c_str (willBuf env)) true;
    SerialPrintln (Some "OK");
    MqttPublish MQTT_TOPIC_STATUS online_text true birth_ok ].

(** The bench with another broker. *)
Definition with_broker (accepts : nat -> bool) (e : Env) : Env :=
  {| mhz_getCO2 := mhz_getCO2 e; sds_readPm := sds_readPm e;
     dallas_getTempC := dallas_getTempC e; gps_encode := gps_encode e;
     broker_accepts := accepts; mqtt_state := mqtt_state e;
     broker_takes := broker_takes e; http_post := http_post e;
     iso8601LocalNow := iso8601LocalNow e; stack := stack e;
     writeFloat := writeFloat e |}.

(** The bench with a broker that takes or drops publications as [takes]
    says. *)
Definition with_takes (takes : nat -> bool) (e : Env) : Env :=
  {| mhz_getCO2 := mhz_getCO2 e; sds_readPm := sds_readPm e;
     dallas_getTempC := dallas_getTempC e; gps_encode := gps_encode e;
     broker_accepts := broker_accepts e; mqtt_state := mqtt_state e;
     broker_takes := takes; http_post := http_post e;
     iso8601LocalNow := iso8601LocalNow e; stack := stack e;
     writeFloat := writeFloat e |}.

(** ** The location label *)

(** A label as [handleSet] stores it: not empty, no white space at either
    end. *)
Definition tidy (s : string) : Prop := trim s = s /\ s <> "".

(** A text with no white space in front. *)
Definition starts_clean (s : string) : Prop :=
  match s with
  | String c _ => isspace c = false
  | EmptyString => True
  end.

(** ** The time stamp *)

(** [iso8601LocalNow] (lines 75-91).  [gettimeofday] and [gmtime] are the
    C library's; [time_t] is taken wide enough for [tv_sec + TZ_OFFSET_SEC],
    and the fields of [struct tm] are the [int]s [gmtime] filled in. *)
Module Clock.

Definition TZ_OFFSET_SEC : Z := -5 * 3600.
Definition TZ_OFFSET_STR : string := "-05:00".

Record timeval : Type := { tv_sec : Z; tv_usec : Z }.

Record tm : Type :=
  { tm_sec : Z; tm_min : Z; tm_hour : Z; tm_mday : Z; tm_mon : Z;
    tm_year : Z }.

(** [memset(&tm_loc, 0, sizeof(tm_loc))]. *)
Definition tm_zero : tm :=
  {| tm_sec := 0; tm_min := 0; tm_hour := 0; tm_mday := 0; tm_mon := 0;
     tm_year := 0 |}.

Definition digit (n : Z) : ascii := ascii_of_nat (48 + Z.to_nat n).

(** The decimal digits of [n >= 0], most significant first; [fuel] bounds
    their number (ten for a 32-bit [int] or [long]). *)
Fixpoint digits (fuel : nat) (n : Z) : string :=
  match fuel with
  | O => ""
  | S fuel' =>
      (if n <? 10 then "" else digits fuel' (n / 10))
      ++ String (digit (n mod 10)) ""
  end.

Fixpoint zeros (n : nat) : string :=
  match n with
  | O => ""
  | S n' => String "0" (zeros n')
  end.

(** [printf]'s [%0wd] and [%0wld]: the sign, then zeros up to the width
    [w], then the digits. *)
Definition pad0 (w : nat) (z : Z) : string :=
  let ds := digits 10 (Z.abs z) in
  if z <? 0 then "-" ++ zeros (w - 1 - String.length ds) ++ ds
  else zeros (w - String.length ds) ++ ds.

(** The text of the format of line 86 for a broken-down time and the
    microseconds. *)
Definition format (t : tm) (usec : Z) : string :=
  pad0 4 (tm_year t + 1900) ++ "-" ++ pad0 2 (tm_mon t + 1) ++ "-"
  ++ pad0 2 (tm_mday t) ++ "T" ++ pad0 2 (tm_hour t) ++ ":"
  ++ pad0 2 (tm_min t) ++ ":" ++ pad0 2 (tm_sec t) ++ "."
  ++ pad0 6 usec ++ TZ_OFFSET_STR.

(** [snprintf(buf, size, ...)] then [String(buf)]: at most [size - 1]
    characters are stored before the terminator. *)
Definition snprintf (size : nat) (text : string) : string :=
  substring 0 (size - 1) text.

Section Now.

(** [gmtime]: [None] is the null pointer. *)
Variable gmtime : Z -> option tm.

Definition iso8601LocalNow (tv : timeval) : string :=
  let local := tv_sec tv + TZ_OFFSET_SEC in
  let tm_loc :=
    match gmtime local with
    | Some t => t
    | None => tm_zero
    end in
  snprintf 40 (format tm_loc (tv_usec tv)).

End Now.

(** The ranges [gmtime] keeps for years 0 to 9999. *)
Definition in_range (t : tm) : Prop :=
  0 <= tm_year t + 1900 <= 9999
  /\ 0 <= tm_mon t <= 11
  /\ 1 <= tm_mday t <= 31
  /\ 0 <= tm_hour t <= 23
  /\ 0 <= tm_min t <= 59
  /\ 0 <= tm_sec t <= 60.

(** A text the JSON writer copies as it is. *)
Definition plain (s : string) : Prop := Json.escape s = s.

End Clock.


(** A wall clock for the bench: 2025-01-01 05:00:00 UTC at start, and a
    [gmtime] that knows that day only. *)
Definition bench_time (t : Z) : Clock.timeval :=
  {| Clock.tv_sec := 1735707600 + t / 1000;
     Clock.tv_usec := (t mod 1000) * 1000 |}.

Definition bench_gmtime (local : Z) : option Clock.tm :=
  let s := local - 1735689600 in
  if (0 <=? s) && (s <? 86400) then
    Some {| Clock.tm_sec := s mod 60; Clock.tm_min := (s / 60) mod 60;
            Clock.tm_hour := s / 3600; Clock.tm_mday := 1;
            Clock.tm_mon := 0; Clock.tm_year := 125 |}
  else None.

(** ** The label in the EEPROM *)

(** [saveLocationToEEPROM] and [loadLocationFromEEPROM] (lines 140-152) on
    the bytes of the store: the array [EEPROM.begin(EEPROM_SIZE)] mirrors,
    which [EEPROM.commit()] writes back. *)
Module Store.

Definition EEPROM_SIZE : nat := 128.
Definition LOCATION_MAX : nat := 32.
Definition EEPROM_ADDR_LOC : nat := 0.

Definition xFF : ascii := "255"%char.

(** [strncpy(dst, src, n)]: the characters of [src] up to its terminator,
    then zero bytes, [n] bytes in all. *)
Fixpoint strncpy (n : nat) (src dst : list ascii) : list ascii :=
  match n, dst with
  | O, _ => dst
  | S _, [] => []
  | S n', _ :: dst' =>
      match src with
      | c :: src' =>
          if Ascii.eqb c NUL then NUL :: strncpy n' [] dst'
          else c :: strncpy n' src' dst'
      | [] => NUL :: strncpy n' [] dst'
      end
  end.

(** [String::toCharArray(buf, bufsize)]. *)
Definition toCharArray (s : string) (bufsize : nat) (buf : list ascii)
  : list ascii :=
  if (bufsize =? 0)%nat then buf
  else if (String.length s =? 0)%nat then poke 0 NUL buf
  else
    let n := Nat.min (bufsize - 1) (String.length s) in
    poke n NUL (strncpy n (chars s) buf).

(** [EEPROM.put(address, buf)] for a [char buf[N]]: refused when the array
    does not fit the store. *)
Definition put (address : nat) (buf rom : list ascii) : list ascii :=
  if (address + List.length buf <=? List.length rom)%nat
  then (firstn address rom ++ buf
          ++ skipn (address + List.length buf) rom)%list
  else rom.

(** [EEPROM.get(address, buf)]: [buf] stays as it was when the array does
    not fit the store. *)
Definition get (address : nat) (buf rom : list ascii) : list ascii :=
  if (address + List.length buf <=? List.length rom)%nat
  then firstn (List.length buf) (skipn address rom)
  else buf.

Definition saveLocationToEEPROM (loc : string) (rom : list ascii)
  : list ascii :=
  let buf := repeat NUL LOCATION_MAX in
  let buf := toCharArray (substring 0 (LOCATION_MAX - 1) loc) LOCATION_MAX buf in
  put EEPROM_ADDR_LOC buf rom.

(** The new value of [LOCATION]; [None] when [String(buf)] finds no
    terminator inside the array. *)
Definition loadLocationFromEEPROM (env : Env) (rom : list ascii)
    (LOCATION : string) : option string :=
  let buf := get EEPROM_ADDR_LOC (fresh env LOCATION_MAX) rom in
  let buf := poke (LOCATION_MAX - 1) SPACE buf in
  let buf :=
    if Ascii.eqb (nth 0 buf NUL) xFF then poke 0 SPACE buf else buf in
  if negb (Ascii.eqb (nth 0 buf NUL) SPACE) then c_str buf
  else Some LOCATION.

(** A label the store gives back: one to thirty characters, none of them
    the terminator, the first neither a space nor the byte of erased
    flash. *)
Definition storable (loc : string) : bool :=
  match chars loc with
  | [] => false
  | c :: _ =>
      (String.length loc <=? 30)%nat
      && negb (Ascii.eqb c SPACE) && negb (Ascii.eqb c xFF)
      && forallb (fun x => negb (Ascii.eqb x NUL)) (chars loc)
  end.

(** A store as the flash is after an erase. *)
Definition erased : list ascii := repeat xFF EEPROM_SIZE.

End Store.

(** ** Start-up: network and time *)

(** [waitForNtp] and [wifiConnect] (lines 93-108) run before the loop, on
    calls of their own; the board here is the clock of [millis()], the
    number of calls made so far to [time()] and to [WiFi.status()], and the
    log of the other calls. *)
Module Boot.

Definition WIFI_SSID : string := "redmi123".
Definition WIFI_PASS : string := "12345678+".

Inductive Call : Type :=
| ConfigTime (timezone daylight : Z) (server1 server2 : string)
| Delay (ms : Z)
| WifiMode (mode : string)
| WifiBegin (ssid pass : string)
| Printf (format arg : string)
| Print (text : string).

Record Board : Type :=
  { clock : Z; time_calls : nat; status_calls : nat; calls : list Call }.

Definition log (c : Call) (b : Board) : Board :=
  {| clock := clock b; time_calls := time_calls b;
     status_calls := status_calls b; calls := (calls b ++ [c])%list |}.

(** [delay(ms)]. *)
Definition delay (ms : Z) (b : Board) : Board :=
  log (Delay ms)
    {| clock := UInt32.add (clock b) ms; time_calls := time_calls b;
       status_calls := status_calls b; calls := calls b |}.

Definition asked_time (b : Board) : Board :=
  {| clock := clock b; time_calls := S (time_calls b);
     status_calls := status_calls b; calls := calls b |}.

Definition asked_status (b : Board) : Board :=
  {| clock := clock b; time_calls := time_calls b;
     status_calls := S (status_calls b); calls := calls b |}.

Section Network.

(** What the [n]-th call of [time(nullptr)] returns, whether the [n]-th
    call of [WiFi.status()] returns [WL_CONNECTED], and the text of
    [WiFi.localIP()]. *)
Variable time : nat -> Z.
Variable wifi_connected : nat -> bool.
Variable localIP : string.

(** The [while] of [waitForNtp], [t0] being its local; [fuel] bounds the
    number of passes. *)
Fixpoint waitForNtp_loop (fuel : nat) (max_ms t0 : Z) (b : Board)
  : option Board :=
  if UInt32.sub (clock b) t0 <? max_ms then
    match fuel with
    | O => None
    | S fuel' =>
        if 1700000000 <? time (time_calls b) then Some (asked_time b)
        else waitForNtp_loop fuel' max_ms t0 (delay 200 (asked_time b))
    end
  else Some b.

Definition waitForNtp (fuel : nat) (max_ms : Z) (b : Board) : option Board :=
  let b := log (ConfigTime 0 0 "pool.ntp.org" "time.nist.gov") b in
  waitForNtp_loop fuel max_ms (clock b) b.

(** The [while] of [wifiConnect]. *)
Fixpoint wifiConnect_loop (fuel : nat) (b : Board) : option Board :=
  if wifi_connected (status_calls b) then Some (asked_status b)
  else
    match fuel with
    | O => None
    | S fuel' =>
        wifiConnect_loop fuel' (log (Print ".") (delay 500 (asked_status b)))
    end.

Definition wifiConnect (fuel : nat) (b : Board) : option Board :=
  let b := log (WifiMode "WIFI_STA") b in
  let b := log (WifiBegin WIFI_SSID WIFI_PASS) b in
  let b := log (Printf ("Conectando WiFi a " ++ quoted "%s") WIFI_SSID) b in
  match wifiConnect_loop fuel b with
  | Some b' => Some (log (Printf "WiFi OK: %s" localIP) b')
  | None => None
  end.

End Network.

(** The board at power-up. *)
Definition reset : Board :=
  {| clock := 0; time_calls := 0; status_calls := 0; calls := [] |}.

(** The calls of one failed poll of the network: the wait and the dot. *)
Definition dot : list Call := [Delay 500; Print "."].

End Boot.

(** ** The text of a message *)

(** One element of the metrics array as the writer prints it. *)
Definition entry (name value : string) : string :=
  "{" ++ quoted "measurement" ++ ":" ++ quoted name ++ ","
      ++ quoted "value" ++ ":" ++ value ++ "}".

(** The header object as the writer prints it. *)
Definition header_text (timeStamp location : string) : string :=
  "{" ++ quoted "userUUID" ++ ":" ++ quoted USER_UUID ++ ","
      ++ quoted "deviceId" ++ ":" ++ quoted MQTT_CLIENT ++ ","
      ++ quoted "timeStamp" ++ ":" ++ quoted (Json.escape timeStamp) ++ ","
      ++ quoted "topic" ++ ":" ++ quoted MQTT_TOPIC_UP ++ ","
      ++ quoted "location" ++ ":" ++ quoted (Json.escape location) ++ ","
      ++ quoted "shouldRequeue" ++ ":" ++ "true" ++ "}".

Fixpoint join (items : list string) : string :=
  match items with
  | [] => ""
  | [x] => x
  | x :: rest => x ++ "," ++ join rest
  end.

(** The whole message: the header, then the metrics array with its
    entries in order. *)
Definition message_text (header : string) (entries : list string) : string :=
  "{" ++ quoted "header" ++ ":" ++ header ++ ","
      ++ quoted "metrics" ++ ":" ++ "[" ++ join entries ++ "]" ++ "}".

(** Where [needle] first occurs in [text], if it does. *)
Definition find_text (needle text : string) : option nat :=
  index 0 needle text.

(** The bench with another rendering of numbers. *)
Definition with_writer (f : spec_float -> string) (e : Env) : Env :=
  {| mhz_getCO2 := mhz_getCO2 e; sds_readPm := sds_readPm e;
     dallas_getTempC := dallas_getTempC e; gps_encode := gps_encode e;
     broker_accepts := broker_accepts e; mqtt_state := mqtt_state e;
     broker_takes := broker_takes e; http_post := http_post e;
     iso8601LocalNow := iso8601LocalNow e; stack := stack e;
     writeFloat := f |}.

(** A rendering that shows the position sentinel and the coordinates of the
    bench's fix, and nothing else. *)
Definition shows_position (f : spec_float) : string :=
  if SFeqb f (F64.of_int (-1)) then "-1"
  else if SFeqb f (F64.of_decimal 71193 4) then "7.1193"
  else if SFeqb f (F64.of_decimal (-731227) 4) then "-73.1227"
  else "0".

(** A label of 292 backslashes, and the world after [handleSet] took it,
    session up, without and with a fresh fix. *)
Definition label_292 : string := replicate 292 BACKSLASH.

Definition crowded : World := snd (handleSet label_292 online).

Definition crowded_fix : World := with_gps (fix_aged 1000) crowded.

(** * Properties *)

(** ** The CO2 channel *)

(** C6. For every value [v] the MH-Z19B returns, [readCO2] hands back [v]
    when [0 < v < 10000] and the sentinel [-1] in every other case
    (negative error codes, 0, readings of 10000 and more); so the result is
    a reading, not the sentinel, exactly when [v] is in the interval, and
    it equals [v] exactly then or when [v] is the sentinel's own value. *)
Theorem readCO2_range (env : Env) (w : World) :
  let v := mhz_getCO2 env (mhz_reads w) in
  let r := fst (readCO2 env w) in
  ((0 < v < 10000 /\ r = v) \/ ((v <= 0 \/ 10000 <= v) /\ r = -1))
  /\ (0 < v < 10000 <-> r <> -1)
  /\ (r = v <-> 0 < v < 10000 \/ v = -1).
Proof.
  cbv zeta. unfold readCO2, bind, listen, mhz_read, ret. cbn [fst snd].
  set (v := mhz_getCO2 env _).
  destruct (Z.ltb_spec 0 v), (Z.ltb_spec v 10000); cbn [andb]; lia.
Qed.

(** ** Traces: what an action may add *)

Lemma published_app (a b : list Event) :
  published (a ++ b) = (published a ++ published b)%list.
Proof.
  induction a as [|e a IH]; [reflexivity|].
  destruct e; cbn [published app]; auto.
  destruct (String.eqb topic MQTT_TOPIC_UP); cbn [app]; now rewrite IH.
Qed.

Lemma calm_refl w : calm w w.
Proof. repeat split. Qed.

Lemma calm_trans w1 w2 w3 : calm w1 w2 -> calm w2 w3 -> calm w1 w3.
Proof. intros (P1 & T1 & L1) (P2 & T2 & L2). repeat split; congruence. Qed.

Lemma calm_log e w : offline_event e -> calm w (log e w).
Proof.
  intros He. split; [|split; reflexivity].
  cbn [trace log]. rewrite published_app, He. apply app_nil_r.
Qed.

Lemma calm_ret {A : Type} (a : A) : calmM (ret a).
Proof. intro w. apply calm_refl. Qed.

Lemma calm_bind {A B : Type} (m : M A) (k : A -> M B) :
  calmM m -> (forall a, calmM (k a)) -> calmM (bind m k).
Proof.
  intros Hm Hk w. unfold bind. specialize (Hm w).
  destruct (m w) as [a w1]. cbn [snd] in Hm.
  eapply calm_trans; [exact Hm | apply Hk].
Qed.

Lemma calm_emit e : offline_event e -> calmM (emit e).
Proof. intros He w. now apply calm_log. Qed.

Lemma calm_delay ms : calmM (delay ms).
Proof. intro w. unfold delay. cbn [snd]. split; [|split; reflexivity].
  cbn [trace log set_now]. rewrite published_app. apply app_nil_r. Qed.

Lemma calm_listen p : calmM (listen p).
Proof. intro w. unfold listen. cbn [snd]. split; [|split; reflexivity].
  cbn [trace log set_listening]. rewrite published_app. apply app_nil_r. Qed.

Lemma calm_readGPS a b : calmM (readGPS a b).
Proof. intro w. unfold readGPS. destruct (_ && _); apply calm_refl. Qed.

Lemma calm_mhz_read env : calmM (mhz_read env).
Proof. intro w. unfold mhz_read. cbn [snd]. split; [|split; reflexivity].
  cbn [trace log next_mhz]. rewrite published_app. apply app_nil_r. Qed.

Lemma calm_sds_read env : calmM (sds_read env).
Proof. intro w. unfold sds_read. cbn [snd]. split; [|split; reflexivity].
  cbn [trace log next_sds]. rewrite published_app. apply app_nil_r. Qed.

Lemma calm_dallas_read env : calmM (dallas_read env).
Proof. intro w. unfold dallas_read. cbn [snd]. split; [|split; reflexivity].
  cbn [trace log next_dallas]. rewrite published_app. apply app_nil_r. Qed.

Create HintDb calm.
#[local] Hint Resolve calm_ret calm_emit calm_delay calm_listen calm_readGPS
  calm_mhz_read calm_sds_read calm_dallas_read : calm.
#[local] Hint Extern 1 (offline_event _) => reflexivity : calm.

(** Splits a sequence of actions and closes the primitive ones. *)
Ltac calm_steps :=
  repeat first
    [ solve [auto with calm]
    | apply calm_bind; [|intros]
    | match goal with
      | |- calmM (if ?b then _ else _) => destruct b
      | |- calmM (let (_, _) := ?p in _) => destruct p
      | |- calmM (match ?x with _ => _ end) => destruct x
      end ].

Lemma calm_readCO2 env : calmM (readCO2 env).
Proof. unfold readCO2. calm_steps. Qed.

Lemma calm_readPM25_loop env n : forall v, calmM (readPM25_loop env n v).
Proof.
  induction n as [|n IH]; intro v; cbn [readPM25_loop]; calm_steps; apply IH.
Qed.

Lemma calm_readPM25 env : calmM (readPM25 env).
Proof.
  unfold readPM25. pose proof (calm_readPM25_loop env 4). calm_steps.
Qed.

Lemma calm_readTemperatureC_loop env n :
  forall acc ok, calmM (readTemperatureC_loop env n acc ok).
Proof.
  induction n as [|n IH]; intros acc ok; cbn [readTemperatureC_loop];
    calm_steps; apply IH.
Qed.

Lemma calm_readTemperatureC env : calmM (readTemperatureC env).
Proof.
  unfold readTemperatureC.
  pose proof (calm_readTemperatureC_loop env 3). calm_steps.
Qed.

Lemma calm_collect env : calmM (collect env).
Proof.
  unfold collect.
  pose proof (calm_readCO2 env). pose proof (calm_readPM25 env).
  pose proof (calm_readTemperatureC env). calm_steps.
Qed.

Lemma calm_mqtt_connect env will : calmM (mqtt_connect env will).
Proof. intro w. unfold mqtt_connect. cbn [snd]. split; [|split; reflexivity].
  cbn [trace log attempted]. rewrite published_app. apply app_nil_r. Qed.

Lemma calm_publish_status env payload retained :
  calmM (mqtt_publish env MQTT_TOPIC_STATUS payload retained).
Proof. intro w. unfold mqtt_publish. cbn [snd]. split; [|split; reflexivity].
  cbn [trace log next_publish]. rewrite published_app. apply app_nil_r. Qed.

Lemma calm_mqttConnect_attempt env : calmM (mqttConnect_attempt env).
Proof.
  unfold mqttConnect_attempt, publish_birth.
  pose proof (calm_mqtt_connect env). pose proof (calm_publish_status env).
  calm_steps. intro w. apply calm_refl.
Qed.

(** The session routine returns only with the session up, and publishes
    nothing on the data topic. *)
Lemma mqttConnect_loop_calm env fuel :
  forall w w', mqttConnect_loop env fuel w = Some w' ->
               calm w w' /\ mqtt_connected w' = true.
Proof.
  induction fuel as [|fuel IH]; intros w w'; cbn [mqttConnect_loop];
    destruct (mqtt_connected w) eqn:Hc; intros H; try discriminate.
  - injection H as <-. split; [apply calm_refl | exact Hc].
  - injection H as <-. split; [apply calm_refl | exact Hc].
  - apply IH in H. destruct H as [H1 H2]. split; [|exact H2].
    eapply calm_trans; [apply calm_mqttConnect_attempt | exact H1].
Qed.

Lemma ensure_connected_calm env fuel w w' :
  ensure_connected env fuel w = Some w' ->
  calm w w' /\ mqtt_connected w' = true.
Proof.
  unfold ensure_connected, mqttConnect.
  destruct (mqtt_connected w) eqn:Hc; intros H.
  - injection H as <-. split; [apply calm_refl | exact Hc].
  - apply mqttConnect_loop_calm in H. destruct H as [H1 H2].
    split; [|exact H2].
    eapply calm_trans; [|exact H1]. now apply calm_log.
Qed.

(** With the session up the routine is not entered at all. *)
Lemma ensure_connected_up env fuel w :
  mqtt_connected w = true -> ensure_connected env fuel w = Some w.
Proof. intros H. unfold ensure_connected. now rewrite H. Qed.

(** Serving a request may change the label, nothing else of note. *)
Lemma server_handleClient_quiet env w :
  published (trace (snd (server_handleClient env w))) = published (trace w)
  /\ t0 (snd (server_handleClient env w)) = t0 w.
Proof.
  unfold server_handleClient, handleSet, saveLocationToEEPROM, bind, emit, ret.
  cbn [fst snd]. destruct (http_post env _) as [arg|].
  - destruct (0 <? String.length (trim arg))%nat;
      cbn [snd trace t0 log set_LOCATION next_poll];
      rewrite !published_app; cbn; rewrite ?app_nil_r; auto.
  - cbn [snd trace t0 log next_poll]. rewrite published_app. cbn.
    rewrite app_nil_r. auto.
Qed.

Lemma calm_feed_gps env : calmM (feed_gps env).
Proof.
  unfold feed_gps. calm_steps; intro w; cbn [snd];
    try apply calm_refl.
  split; [|split; reflexivity]. cbn [trace log fed]. rewrite published_app.
  apply app_nil_r.
Qed.

(** Lines 296-303 publish nothing on the data topic, leave the timer alone
    and end with the session up. *)
Lemma loop_service_calm env fuel w w1 :
  loop_service env fuel w = Some w1 ->
  published (trace w1) = published (trace w)
  /\ t0 w1 = t0 w
  /\ mqtt_connected w1 = true.
Proof.
  unfold loop_service.
  destruct (ensure_connected env fuel _) as [w0|] eqn:He; [|discriminate].
  intros H. injection H as <-.
  apply ensure_connected_calm in He. destruct He as [(Hp & Ht & _) Hup].
  destruct (server_handleClient_quiet env w) as [Hp0 Ht0].
  assert (Hm : calmM (emit MqttLoop ;; feed_gps env)).
  { apply calm_bind; [apply calm_emit; reflexivity|].
    intros _. apply calm_feed_gps. }
  destruct (Hm w0) as (Hp1 & Ht1 & _).
  split; [congruence|]. split; [congruence|].
  unfold bind, emit, feed_gps, bind, listen, ret. cbn [fst snd].
  destruct (listening (log MqttLoop w0)) as [[]|]; exact Hup.
Qed.

(** ** One publish cycle on the wire *)

Lemma fresh_length env N : List.length (fresh env N) = N.
Proof. unfold fresh. now rewrite length_map, length_seq. Qed.

(** The bytes handed over are the first 900 of the full text. *)
Lemma wire_prefix env doc :
  wire env doc =
  string_of_list_ascii (firstn 900 (chars (Json.write (writeFloat env) doc))).
Proof.
  unfold wire, Json.serializeJson, bytes. rewrite fresh_length.
  set (written := firstn 900 _).
  destruct (Nat.ltb_spec (List.length written) 900).
  - rewrite firstn_app, Nat.sub_diag, firstn_all. cbn [firstn].
    now rewrite app_nil_r.
  - now rewrite firstn_all.
Qed.

Lemma publish_cycle_trace env w :
  exists ok,
    trace (snd (publish_cycle env w)) =
    (trace (snd (collect env w)) ++ transmission env (assembled env w) ok)%list
    /\ t0 (snd (publish_cycle env w)) = t0 w
    /\ now (snd (publish_cycle env w)) = now (snd (collect env w)).
Proof.
  pose proof (calm_collect env w) as (_ & Ht0 & _).
  unfold publish_cycle, assembled, bind.
  destruct (collect env w) as [r wc]. cbn [snd] in *.
  unfold transmit, transmission, wire.
  destruct (Json.serializeJson _ _ _) as [n buf].
  unfold bind, mqtt_publish, emit, ret.
  cbn [fst snd trace log next_publish t0 now].
  eexists. rewrite <- !app_assoc. cbn [app]. split; [reflexivity|].
  split; [exact Ht0 | reflexivity].
Qed.

(** [publishJson] once the session is up (or has been brought up): the
    channels are read, then exactly one publication is attempted, with the
    bytes [wire] of the assembled document. *)
Lemma publishJson_run env fuel w w1 :
  ensure_connected env fuel w = Some w1 ->
  exists w' ok,
    publishJson env fuel w = Some w'
    /\ trace w' =
       (trace (snd (collect env w1))
        ++ transmission env (assembled env w1) ok)%list
    /\ published (trace w') =
       (published (trace w) ++ [wire env (assembled env w1)])%list
    /\ t0 w' = t0 w
    /\ now w' = now (snd (collect env w1)).
Proof.
  intros He. unfold publishJson. rewrite He.
  destruct (publish_cycle_trace env w1) as (ok & Htr & Ht0 & Hnow).
  apply ensure_connected_calm in He. destruct He as [(Hp & Ht & _) _].
  exists (snd (publish_cycle env w1)), ok.
  split; [reflexivity|]. split; [exact Htr|]. split; [|split].
  - rewrite Htr, published_app.
    destruct (calm_collect env w1) as [Hc _]. rewrite Hc, Hp.
    reflexivity.
  - congruence.
  - exact Hnow.
Qed.

(** ** The assembled record *)

Lemma readGPS_world a b w : snd (readGPS a b w) = w.
Proof. unfold readGPS. now destruct (_ && _). Qed.

(** The readings of a cycle are the results of the four channels, each
    run in the world its predecessor left. *)
Lemma collect_readings env w :
  let g := fst (readGPS (F64.of_int (-1)) (F64.of_int (-1)) w) in
  let c := readCO2 env w in
  let p := readPM25 env (snd c) in
  let t := readTemperatureC env (snd p) in
  collect env w =
  ({| haveGPS := fst (fst g); fix_lat := snd (fst g); fix_lon := snd g;
      co2 := fst c; pm := fst p; temp := fst t |}, snd t).
Proof.
  cbv zeta. unfold collect, bind at 1.
  pose proof (readGPS_world (F64.of_int (-1)) (F64.of_int (-1)) w) as Hw.
  destruct (readGPS _ _ w) as [g w0]. cbn [fst snd] in *. subst w0.
  unfold bind at 1. destruct (readCO2 env w) as [c w1]. cbn [fst snd].
  unfold bind at 1. destruct (readPM25 env w1) as [p w2]. cbn [fst snd].
  unfold bind at 1. destruct (readTemperatureC env w2) as [t w3].
  reflexivity.
Qed.

Lemma assembled_message env w :
  assembled env w =
  message (iso8601LocalNow env (now (snd (collect env w))))
    (LOCATION (snd (collect env w))) (fst (collect env w)).
Proof. unfold assembled. now destruct (collect env w). Qed.

Lemma measurement_Lat ts loc r :
  measurement "Lat" (message ts loc r) =
  Some (Json.Float (if haveGPS r then fix_lat r else F64.of_int (-1))).
Proof. reflexivity. Qed.

Lemma measurement_Lon ts loc r :
  measurement "Lon" (message ts loc r) =
  Some (Json.Float (if haveGPS r then fix_lon r else F64.of_int (-1))).
Proof. reflexivity. Qed.

(** ** The output buffer *)

Lemma length_string_of_list_ascii (l : list ascii) :
  String.length (string_of_list_ascii l) = List.length l.
Proof. induction l as [|c l IH]; cbn; [reflexivity | now rewrite IH]. Qed.

Lemma length_chars (s : string) : List.length (chars s) = String.length s.
Proof.
  unfold chars. induction s as [|c s IH]; cbn; [reflexivity | now rewrite IH].
Qed.

(** A text that fits the buffer is handed over whole; a longer one is cut
    at 900 bytes. *)
Lemma wire_fits env doc :
  (String.length (Json.write (writeFloat env) doc) <= 900)%nat ->
  wire env doc = Json.write (writeFloat env) doc.
Proof.
  intros H. rewrite wire_prefix, firstn_all2.
  - apply string_of_list_ascii_of_string.
  - now rewrite length_chars.
Qed.

Lemma wire_cut env doc :
  (900 < String.length (Json.write (writeFloat env) doc))%nat ->
  String.length (wire env doc) = 900%nat.
Proof.
  intros H. rewrite wire_prefix, length_string_of_list_ascii, length_firstn.
  rewrite length_chars. lia.
Qed.

Lemma length_append (a b : string) :
  String.length (a ++ b) = (String.length a + String.length b)%nat.
Proof. induction a as [|c a IH]; cbn; [reflexivity | now rewrite IH]. Qed.







(** ** The text on the wire *)

Lemma append_assoc (a b c : string) : (a ++ b) ++ c = a ++ (b ++ c).
Proof. induction a as [|x a IH]; [reflexivity|]. cbn. now rewrite IH. Qed.

(** The writer's text of a message, piece by piece. *)
Lemma write_message wf ts loc r :
  Json.write wf (message ts loc r) =
  message_text (header_text ts loc)
    [ entry "CO2" (Json.write_int (co2 r));
      entry "PM2.5" (wf (pm r));
      entry "Temperature" (wf (temp r));
      entry "Lat" (wf (if haveGPS r then fix_lat r else F64.of_int (-1)));
      entry "Lon" (wf (if haveGPS r then fix_lon r else F64.of_int (-1))) ].
Proof.
  unfold message_text, header_text, entry, join, quoted.
  cbn -[append Json.write_int F64.of_int Json.escape].
  unfold Json.write_string, quoted.
  cbn -[append Json.write_int F64.of_int Json.escape].
  rewrite !append_assoc.
  cbn -[Json.write_int F64.of_int Json.escape].
  reflexivity.
Qed.

(** A cycle whose text fits the buffer: the payload handed to
    [mqtt.publish] is the whole text, with the values of the channels. *)
Lemma publishJson_payload env fuel w w1 :
  ensure_connected env fuel w = Some w1 ->
  (String.length (Json.write (writeFloat env) (assembled env w1)) <= 900)%nat ->
  let r := fst (collect env w1) in
  let ts := iso8601LocalNow env (now (snd (collect env w1))) in
  exists w' ok,
    publishJson env fuel w = Some w'
    /\ published (trace w') =
       (published (trace w) ++ [wire env (assembled env w1)])%list
    /\ In (MqttPublish MQTT_TOPIC_UP (wire env (assembled env w1)) false ok)
         (trace w')
    /\ wire env (assembled env w1) =
       message_text (header_text ts (LOCATION w1))
         [ entry "CO2" (Json.write_int (co2 r));
           entry "PM2.5" (writeFloat env (pm r));
           entry "Temperature" (writeFloat env (temp r));
           entry "Lat"
             (writeFloat env
                (if haveGPS r then fix_lat r else F64.of_int (-1)));
           entry "Lon"
             (writeFloat env
                (if haveGPS r then fix_lon r else F64.of_int (-1))) ].
Proof.
  intros He Hfit. cbv zeta.
  destruct (publishJson_run env fuel w w1 He) as (w' & ok & Hp & Htr & Hpub & _).
  exists w', ok. split; [exact Hp|]. split; [exact Hpub|]. split.
  - rewrite Htr. apply in_or_app. right.
    unfold transmission. destruct (Json.serializeJson _ _ _). now left.
  - rewrite (wire_fits env _ Hfit), assembled_message, write_message.
    destruct (calm_collect env w1) as (_ & _ & Hloc). now rewrite Hloc.
Qed.

(** ** The position channel *)

(** C7, amended. [readGPS] reports a fix, with the decoder's coordinates,
    exactly when the decoder holds a valid fix less than 3000 ms old;
    otherwise it reports none and leaves the caller's variables alone.  A
    fix aged 2999 ms is accepted, one aged 3001 ms is not.  In a publish
    cycle that finds no fresh fix and whose text fits the 900-byte buffer,
    the payload [publishJson] hands to the client is the whole text of the
    message, and its Lat and Lon entries both carry -1. *)
Theorem readGPS_fresh_fix (env : Env) (fuel : nat) (w w1 w0 : World)
    (lat0 lon0 : F64.t) :
  ensure_connected env fuel w = Some w1 ->
  (String.length (Json.write (writeFloat env) (assembled env w1)) <= 900)%nat ->
  let g := gps w0 in
  let r := fst (collect env w1) in
  let ts := iso8601LocalNow env (now (snd (collect env w1))) in
  ((isValid g = true /\ age g < 3000
    /\ fst (readGPS lat0 lon0 w0) = (true, lat g, lng g))
   \/
   ((isValid g = false \/ 3000 <= age g)
    /\ fst (readGPS lat0 lon0 w0) = (false, lat0, lon0)))
  /\ fst (readGPS lat0 lon0 (with_gps (fix_aged 2999) w0))
     = (true, lat (fix_aged 2999), lng (fix_aged 2999))
  /\ fst (readGPS lat0 lon0 (with_gps (fix_aged 3001) w0))
     = (false, lat0, lon0)
  /\ exists w' ok payload,
       publishJson env fuel w = Some w'
       /\ published (trace w') = (published (trace w) ++ [payload])%list
       /\ In (MqttPublish MQTT_TOPIC_UP payload false ok) (trace w')
       /\ (isValid (gps w1) = false \/ 3000 <= age (gps w1) ->
           measurement "Lat" (assembled env w1)
           = Some (Json.Float (F64.of_int (-1)))
           /\ measurement "Lon" (assembled env w1)
              = Some (Json.Float (F64.of_int (-1)))
           /\ payload =
              message_text (header_text ts (LOCATION w1))
                [ entry "CO2" (Json.write_int (co2 r));
                  entry "PM2.5" (writeFloat env (pm r));
                  entry "Temperature" (writeFloat env (temp r));
                  entry "Lat" (writeFloat env (F64.of_int (-1)));
                  entry "Lon" (writeFloat env (F64.of_int (-1))) ]).
Proof.
  intros He Hfit. cbv zeta. split; [|split; [reflexivity|split; [reflexivity|]]].
  - unfold readGPS.
    destruct (isValid (gps w0)) eqn:Hv; cbn [andb fst snd].
    + destruct (Z.ltb_spec (age (gps w0)) 3000); cbn [fst snd]; auto 10.
    + right. auto.
  - destruct (publishJson_payload env fuel w w1 He Hfit)
      as (w' & ok & Hp & Hpub & Hin & Htext).
    exists w', ok, (wire env (assembled env w1)).
    split; [exact Hp|]. split; [exact Hpub|]. split; [exact Hin|].
    intros Hstale.
    rewrite Htext, assembled_message, measurement_Lat, measurement_Lon.
    rewrite collect_readings. cbn [fst snd haveGPS fix_lat fix_lon co2 pm temp].
    assert (Hno : isValid (gps w1) && (age (gps w1) <? 3000) = false).
    { destruct Hstale as [Hv|Ha]; [now rewrite Hv|].
      apply andb_false_iff. right. apply Z.ltb_ge. exact Ha. }
    unfold readGPS. rewrite Hno. cbn [fst snd]. auto.
Qed.

(** ** The published record *)

(** C10, amended. In every published message whose text fits the 900-byte
    buffer Lat and Lon go together: the payload is the whole text of the
    message, and its last two entries are Lat and Lon with the coordinates
    of the fix when [readGPS] reports one, and with -1 both when it
    reports none. *)
Theorem publishJson_position_pair (env : Env) (fuel : nat) (w w1 : World) :
  ensure_connected env fuel w = Some w1 ->
  (String.length (Json.write (writeFloat env) (assembled env w1)) <= 900)%nat ->
  let doc := assembled env w1 in
  let r := fst (collect env w1) in
  let ts := iso8601LocalNow env (now (snd (collect env w1))) in
  let g := gps w1 in
  let have := fst (fst (fst (readGPS (F64.of_int (-1)) (F64.of_int (-1)) w1))) in
  let text lat lon :=
    message_text (header_text ts (LOCATION w1))
      [ entry "CO2" (Json.write_int (co2 r));
        entry "PM2.5" (writeFloat env (pm r));
        entry "Temperature" (writeFloat env (temp r));
        entry "Lat" (writeFloat env lat);
        entry "Lon" (writeFloat env lon) ] in
  exists w' ok payload,
    publishJson env fuel w = Some w'
    /\ published (trace w') = (published (trace w) ++ [payload])%list
    /\ In (MqttPublish MQTT_TOPIC_UP payload false ok) (trace w')
    /\ ((have = true
         /\ measurement "Lat" doc = Some (Json.Float (lat g))
         /\ measurement "Lon" doc = Some (Json.Float (lng g))
         /\ payload = text (lat g) (lng g))
        \/
        (have = false
         /\ measurement "Lat" doc = Some (Json.Float (F64.of_int (-1)))
         /\ measurement "Lon" doc = Some (Json.Float (F64.of_int (-1)))
         /\ payload = text (F64.of_int (-1)) (F64.of_int (-1)))).
Proof.
  intros He Hfit. cbv zeta.
  destruct (publishJson_payload env fuel w w1 He Hfit)
    as (w' & ok & Hp & Hpub & Hin & Htext).
  exists w', ok, (wire env (assembled env w1)).
  split; [exact Hp|]. split; [exact Hpub|]. split; [exact Hin|].
  rewrite Htext, assembled_message, measurement_Lat, measurement_Lon.
  rewrite collect_readings. cbn [fst snd haveGPS fix_lat fix_lon co2 pm temp].
  unfold readGPS. destruct (_ && _); cbn [fst snd]; auto 10.
Qed.


(** ** The temperature channel *)

Lemma readTemperatureC_loop_step env n acc ok w :
  readTemperatureC_loop env (S n) acc ok w =
  if plausible (dallas_getTempC env (dallas_reads w))
  then readTemperatureC_loop env n
         (F32.add acc (dallas_getTempC env (dallas_reads w))) (ok + 1)
         (converted w)
  else readTemperatureC_loop env n acc ok (converted w).
Proof.
  cbn [readTemperatureC_loop]. unfold bind, emit, dallas_read, plausible.
  cbn [fst snd dallas_reads log].
  destruct (_ && _); reflexivity.
Qed.

Lemma readTemperatureC_run env w :
  let s i := dallas_getTempC env (i + dallas_reads w) in
  readTemperatureC env w =
  (mean_of_plausible [s 0%nat; s 1%nat; s 2%nat],
   converted (converted (converted
     (log (DallasSetWaitForConversion true) (log (DallasSetResolution 12) w))))).
Proof.
  cbv zeta. unfold readTemperatureC, bind at 1, emit at 1. cbn [fst snd].
  unfold bind at 1, emit at 1. cbn [fst snd]. unfold bind.
  rewrite !readTemperatureC_loop_step.
  cbn [dallas_reads converted log next_dallas Nat.add].
  unfold mean_of_plausible. cbn [filter].
  destruct (plausible (dallas_getTempC env (dallas_reads w)));
    destruct (plausible (dallas_getTempC env (S (dallas_reads w))));
    destruct (plausible (dallas_getTempC env (S (S (dallas_reads w)))));
    reflexivity.
Qed.

(** C4. [readTemperatureC] runs three conversion and read cycles, and its
    result is the mean of the samples strictly inside (-55, 125), or -127
    (not -1) when none is; for the samples 23.5, -127, 24.1 that is 23.8,
    the disconnect code -127 taking no part in the mean. *)
Theorem readTemperatureC_mean (env : Env) (w : World) :
  let s i := dallas_getTempC env (i + dallas_reads w) in
  fst (readTemperatureC env w) = mean_of_plausible [s 0%nat; s 1%nat; s 2%nat]
  /\ trace (snd (readTemperatureC env w)) =
     (trace w ++ DallasSetResolution 12 :: DallasSetWaitForConversion true
        :: conversion ++ conversion ++ conversion)%list
  /\ dallas_reads (snd (readTemperatureC env w)) = (3 + dallas_reads w)%nat
  /\ mean_of_plausible
       [F32.of_decimal 235 1; F32.of_int (-127); F32.of_decimal 241 1]
     = F32.of_decimal 238 1
  /\ mean_of_plausible [F32.of_int (-127); F32.of_int (-127); F32.of_int (-127)]
     = F32.of_int (-127)
  /\ F32.of_int (-127) <> F32.of_int (-1).
Proof.
  cbv zeta. rewrite (readTemperatureC_run env w). cbn [fst snd].
  split; [reflexivity|]. split.
  { cbn [trace converted log next_dallas]. rewrite <- !app_assoc. reflexivity. }
  split; [reflexivity|].
  split; [vm_compute; reflexivity|].
  split; [vm_compute; reflexivity|].
  vm_compute. discriminate.
Qed.

(** ** The particulate channel *)

Lemma readPM25_loop_done env n v w :
  F32.isfinite v = true -> readPM25_loop env n v w = (v, w).
Proof. intros H. destruct n; cbn [readPM25_loop]; [|rewrite H]; reflexivity. Qed.

Lemma readPM25_loop_step env n v w :
  F32.isfinite v = false ->
  readPM25_loop env (S n) v w =
  readPM25_loop env n
    (if isOk (sds_readPm env (sds_reads w))
     then pm25 (sds_readPm env (sds_reads w)) else v)
    (attempted_read w).
Proof. intros H. cbn [readPM25_loop]. rewrite H. reflexivity. Qed.

Lemma usable_taken r v :
  usable r = true ->
  (if isOk r then pm25 r else v) = pm25 r /\ F32.isfinite (pm25 r) = true.
Proof.
  unfold usable. destruct (isOk r); cbn [andb]; [auto | discriminate].
Qed.

Lemma unusable_carried r v :
  usable r = false -> F32.isfinite v = false ->
  F32.isfinite (if isOk r then pm25 r else v) = false.
Proof. unfold usable. destruct (isOk r); cbn [andb]; auto. Qed.

(** All the runs of [readPM25], by the first usable reply. *)
Lemma readPM25_cases env w :
  let r i := sds_readPm env (i + sds_reads w) in
  let v := fst (readPM25 env w) in
  let tr := trace (snd (readPM25 env w)) in
  (exists i, (i < 4)%nat
     /\ (forall j, (j < i)%nat -> usable (r j) = false)
     /\ usable (r i) = true
     /\ v = pm25 (r i)
     /\ tr = (trace w ++ Listen SdsSerial
                :: List.concat (repeat attempt (S i)))%list)
  \/
  ((forall j, (j < 4)%nat -> usable (r j) = false)
   /\ tr = (trace w ++ Listen SdsSerial
              :: List.concat (repeat attempt 4) ++ recovery)%list
   /\ ((usable (r 4%nat) = true /\ v = pm25 (r 4%nat))
       \/ (usable (r 4%nat) = false /\ v = F32.of_int (-1)))).
Proof.
  cbv zeta.
  set (w0 := log (Listen SdsSerial) (set_listening SdsSerial w)).
  assert (Hrun : readPM25 env w =
    let (v, w1) := readPM25_loop env 4 F32.NAN w0 in
    let (v', w2) :=
      (if F32.isfinite v then ret v
       else
         emit SdsWakeup ;; delay 800 ;; emit SdsSetActiveReportingMode ;;
         emit SdsSetContinuousWorkingPeriod ;;
         pm <- sds_read env ;; ret (if isOk pm then pm25 pm else v)) w1 in
    (if F32.isfinite v' then v' else F32.of_int (-1), w2)) by reflexivity.
  rewrite Hrun. clear Hrun.
  assert (Hnan : F32.isfinite F32.NAN = false) by reflexivity.
  assert (Hs : sds_reads w0 = sds_reads w) by reflexivity.
  (* first attempt *)
  rewrite (readPM25_loop_step env 3 F32.NAN w0 Hnan). rewrite Hs.
  destruct (usable (sds_readPm env (sds_reads w))) eqn:U0.
  { destruct (usable_taken _ F32.NAN U0) as [Ev F]. rewrite Ev.
    rewrite (readPM25_loop_done env _ _ _ F). cbn [fst snd]. rewrite F.
    unfold ret. rewrite F. cbn [fst snd].
    left. exists 0%nat. split; [lia|]. split; [intros j Hj; lia|].
    split; [exact U0|]. split; [reflexivity|].
    cbn. rewrite <- !app_assoc. reflexivity. }
  pose proof (unusable_carried _ _ U0 Hnan) as N0.
  (* second attempt *)
  rewrite (readPM25_loop_step env 2 _ _ N0).
  change (sds_reads (attempted_read w0)) with (S (sds_reads w)).
  destruct (usable (sds_readPm env (S (sds_reads w)))) eqn:U1.
  { match goal with |- context [readPM25_loop env _ (if _ then _ else ?x)] =>
      destruct (usable_taken _ x U1) as [Ev F] end. rewrite Ev.
    rewrite (readPM25_loop_done env _ _ _ F). cbn [fst snd]. rewrite F.
    unfold ret. rewrite F. cbn [fst snd].
    left. exists 1%nat. split; [lia|].
    split; [intros [|j] Hj; [exact U0 | lia]|].
    split; [exact U1|]. split; [reflexivity|].
    cbn. rewrite <- !app_assoc. reflexivity. }
  pose proof (unusable_carried _ _ U1 N0) as N1.
  (* third attempt *)
  rewrite (readPM25_loop_step env 1 _ _ N1).
  change (sds_reads (attempted_read (attempted_read w0)))
    with (S (S (sds_reads w))).
  destruct (usable (sds_readPm env (S (S (sds_reads w))))) eqn:U2.
  { match goal with |- context [readPM25_loop env _ (if _ then _ else ?x)] =>
      destruct (usable_taken _ x U2) as [Ev F] end. rewrite Ev.
    rewrite (readPM25_loop_done env _ _ _ F). cbn [fst snd]. rewrite F.
    unfold ret. rewrite F. cbn [fst snd].
    left. exists 2%nat. split; [lia|].
    split; [intros [|[|j]] Hj; [exact U0 | exact U1 | lia]|].
    split; [exact U2|]. split; [reflexivity|].
    cbn. rewrite <- !app_assoc. reflexivity. }
  pose proof (unusable_carried _ _ U2 N1) as N2.
  (* fourth attempt *)
  rewrite (readPM25_loop_step env 0 _ _ N2).
  change (sds_reads (attempted_read (attempted_read (attempted_read w0))))
    with (S (S (S (sds_reads w)))).
  destruct (usable (sds_readPm env (S (S (S (sds_reads w)))))) eqn:U3.
  { match goal with |- context [readPM25_loop env _ (if _ then _ else ?x)] =>
      destruct (usable_taken _ x U3) as [Ev F] end. rewrite Ev.
    rewrite (readPM25_loop_done env _ _ _ F). cbn [fst snd]. rewrite F.
    unfold ret. rewrite F. cbn [fst snd].
    left. exists 3%nat. split; [lia|].
    split; [intros [|[|[|j]]] Hj; [exact U0 | exact U1 | exact U2 | lia]|].
    split; [exact U3|]. split; [reflexivity|].
    cbn. rewrite <- !app_assoc. reflexivity. }
  pose proof (unusable_carried _ _ U3 N2) as N3.
  (* recovery *)
  match type of N3 with F32.isfinite ?x = false => set (prev := x) in * end.
  cbn [readPM25_loop]. unfold bind, emit, delay, sds_read, ret.
  cbv beta iota. rewrite N3.
  cbn [fst snd sds_reads log set_now attempted_read next_sds].
  change (sds_reads w0) with (sds_reads w).
  right.
  split; [intros [|[|[|[|j]]]] Hj;
          [exact U0 | exact U1 | exact U2 | exact U3 | lia]|].
  split.
  { cbn. rewrite <- !app_assoc. reflexivity. }
  change (sds_readPm env (4 + sds_reads w))
    with (sds_readPm env (S (S (S (S (sds_reads w)))))).
  destruct (usable (sds_readPm env (S (S (S (S (sds_reads w))))))) eqn:U4.
  - left. split; [reflexivity|].
    destruct (usable_taken _ prev U4) as [Ev F]. rewrite Ev. now rewrite F.
  - right. split; [reflexivity|].
    now rewrite (unusable_carried _ prev U4 N3).
Qed.

(** C5. [readPM25] makes up to four reads, each followed by the 200 ms
    delay, and returns the value of the first usable one; when none of the
    four is usable it runs the recovery sequence once (wake, 800 ms wait,
    active reporting, continuous working period) and reads exactly once
    more: the value of that read when it is usable, -1 otherwise. *)
Theorem readPM25_policy (env : Env) (w : World) :
  let r i := sds_readPm env (i + sds_reads w) in
  let v := fst (readPM25 env w) in
  let tr := trace (snd (readPM25 env w)) in
  (exists i, (i < 4)%nat
     /\ (forall j, (j < i)%nat -> usable (r j) = false)
     /\ usable (r i) = true
     /\ v = pm25 (r i)
     /\ tr = (trace w ++ Listen SdsSerial
                :: List.concat (repeat attempt (S i)))%list)
  \/
  ((forall j, (j < 4)%nat -> usable (r j) = false)
   /\ tr = (trace w ++ Listen SdsSerial
              :: List.concat (repeat attempt 4) ++ recovery)%list
   /\ ((usable (r 4%nat) = true /\ v = pm25 (r 4%nat))
       \/ (usable (r 4%nat) = false /\ v = F32.of_int (-1)))).
Proof. exact (readPM25_cases env w). Qed.

(** C9. Whatever the sensor replies (failed reads, NaN, infinities), the
    value [readPM25] returns is a finite number: the sentinel -1 or the
    finite value of one of the at most five replies it read. *)
Theorem readPM25_finite (env : Env) (w : World) :
  let r i := sds_readPm env (i + sds_reads w) in
  let v := fst (readPM25 env w) in
  F32.isfinite v = true
  /\ (v = F32.of_int (-1)
      \/ exists i, (i <= 4)%nat /\ isOk (r i) = true
                   /\ F32.isfinite (pm25 (r i)) = true /\ v = pm25 (r i)).
Proof.
  cbv zeta.
  assert (Hu : forall r, usable r = true ->
                 isOk r = true /\ F32.isfinite (pm25 r) = true).
  { intros r. unfold usable. now destruct (isOk r), (F32.isfinite (pm25 r)). }
  destruct (readPM25_cases env w)
    as [(i & Hi & _ & U & -> & _) | (_ & _ & [[U ->] | [_ ->]])].
  - destruct (Hu _ U) as [Ho Hf]. split; [exact Hf|].
    right. exists i. repeat split; auto. lia.
  - destruct (Hu _ U) as [Ho Hf]. split; [exact Hf|].
    right. exists 4%nat. repeat split; auto.
  - split; [reflexivity | now left].
Qed.

(** Four silent reads, then an answer to the read of the recovery
    sequence: the recovered value is returned. *)
Example readPM25_recovers :
  fst (readPM25
         (with_sds (fun n => if (n <? 4)%nat then pm_silent else pm_8_3) bench)
         boot)
  = F32.of_decimal 83 1.
Proof. vm_compute. reflexivity. Qed.

(** A sensor that never answers: the sentinel. *)
Example readPM25_gives_up :
  fst (readPM25 (with_sds (fun _ => pm_silent) bench) boot) = F32.of_int (-1).
Proof. vm_compute. reflexivity. Qed.

(** Reads that succeed with an infinite value count as failures. *)
Example readPM25_rejects_infinity :
  fst (readPM25
         (with_sds (fun _ => {| isOk := true; pm25 := S754_infinity false |})
            bench)
         boot)
  = F32.of_int (-1).
Proof. vm_compute. reflexivity. Qed.

(** The probe of the specification's example: 23.5, the disconnect code,
    24.1. *)
Example readTemperatureC_example :
  fst (readTemperatureC
         (with_dallas
            (fun n => nth n [F32.of_decimal 235 1; F32.of_int (-127);
                             F32.of_decimal 241 1] F32.NAN)
            bench)
         boot)
  = F32.of_decimal 238 1.
Proof. vm_compute. reflexivity. Qed.

(** ** Instances on the bench *)

Lemma readGPS_fresh_fix_witness :
  exists w',
    publishJson (with_writer shows_position bench) 1 boot = Some w'
    /\ published (trace w') =
       [ message_text
           (header_text "2025-01-01T00:00:00.000000-05:00" "Device test")
           [ entry "CO2" "412"; entry "PM2.5" "0"; entry "Temperature" "0";
             entry "Lat" "-1"; entry "Lon" "-1" ] ].
Proof.
  assert (Hup : ensure_connected (with_writer shows_position bench) 1 boot
                = Some online) by (vm_compute; reflexivity).
  assert (Hfit : (String.length
                    (Json.write (writeFloat (with_writer shows_position bench))
                       (assembled (with_writer shows_position bench) online))
                  <= 900)%nat) by (apply Nat.leb_le; vm_compute; reflexivity).
  destruct (readGPS_fresh_fix (with_writer shows_position bench) 1 boot online
              boot (F64.of_int 0) (F64.of_int 0) Hup Hfit)
    as (_ & _ & _ & w' & ok & payload & Hp & Hpub & _ & Hstale).
  destruct Hstale as (_ & _ & Hpay); [left; reflexivity|].
  exists w'. split; [exact Hp|]. rewrite Hpub, Hpay. vm_compute. reflexivity.
Defined.

Lemma publishJson_position_pair_witness :
  exists w',
    publishJson (with_writer shows_position bench) 1
      (with_gps (fix_aged 1000) boot) = Some w'
    /\ published (trace w') =
       [ message_text
           (header_text "2025-01-01T00:00:00.000000-05:00" "Device test")
           [ entry "CO2" "412"; entry "PM2.5" "0"; entry "Temperature" "0";
             entry "Lat" "7.1193"; entry "Lon" "-73.1227" ] ].
Proof.
  assert (Hup : ensure_connected (with_writer shows_position bench) 1
                  (with_gps (fix_aged 1000) boot)
                = Some (with_gps (fix_aged 1000) online))
    by (vm_compute; reflexivity).
  assert (Hfit : (String.length
                    (Json.write (writeFloat (with_writer shows_position bench))
                       (assembled (with_writer shows_position bench)
                          (with_gps (fix_aged 1000) online)))
                  <= 900)%nat) by (apply Nat.leb_le; vm_compute; reflexivity).
  destruct (publishJson_position_pair (with_writer shows_position bench) 1
              (with_gps (fix_aged 1000) boot)
              (with_gps (fix_aged 1000) online) Hup Hfit)
    as (w' & ok & payload & Hp & Hpub & _ & Hcases).
  exists w'. split; [exact Hp|]. rewrite Hpub.
  destruct Hcases as [(_ & _ & _ & Hpay) | (Hf & _)].
  - rewrite Hpay. vm_compute. reflexivity.
  - vm_compute in Hf. discriminate Hf.
Defined.


(** ** Texts longer than the buffer *)

(** C2 as stated fails: with the 400-backslash label the text of the
    message has 1150 bytes; [publishJson] does not skip the publication
    but hands the broker its first 900 bytes, and the broker takes them. *)
Lemma publishJson_truncates :
  exists w' payload,
    publishJson bench 0 flooded = Some w'
    /\ In (MqttPublish MQTT_TOPIC_UP payload false true) (trace w')
    /\ In (SerialPrintln (Some "[STATUS] Published OK")) (trace w')
    /\ String.length payload = 900%nat
    /\ String.length (Json.write (writeFloat bench) (assembled bench flooded))
       = 1150%nat
    /\ payload <> Json.write (writeFloat bench) (assembled bench flooded).
Proof.
  destruct (publishJson bench 0 flooded) as [w'|] eqn:E;
    [|vm_compute in E; discriminate E].
  exists w', (wire bench (assembled bench flooded)).
  split; [reflexivity|].
  assert (Hw : w' = snd (publish_cycle bench flooded)).
  { vm_compute in E. injection E as <-. vm_compute. reflexivity. }
  subst w'. clear E.
  split; [vm_compute; tauto|]. split; [vm_compute; tauto|].
  split; [vm_compute; reflexivity|]. split; [vm_compute; reflexivity|].
  intros H. apply (f_equal String.length) in H. vm_compute in H.
  discriminate H.
Qed.


(** C10 as stated fails: with a label of 292 backslashes the text has 934
    bytes and the cut falls right after the Lat entry; with a fresh fix
    the published payload carries Lat and no Lon. *)
Lemma publishJson_splits_position :
  exists w' payload,
    fst (fst (fst (readGPS (F64.of_int (-1)) (F64.of_int (-1)) crowded_fix)))
    = true
    /\ publishJson bench 0 crowded_fix = Some w'
    /\ published (trace w') = [payload]
    /\ In (MqttPublish MQTT_TOPIC_UP payload false true) (trace w')
    /\ String.length (Json.write (writeFloat bench) (assembled bench crowded_fix))
       = 934%nat
    /\ String.length payload = 900%nat
    /\ find_text (quoted "Lat") payload = Some 884%nat
    /\ find_text (quoted "Lon") payload = None.
Proof.
  destruct (publishJson bench 0 crowded_fix) as [w'|] eqn:E;
    [|vm_compute in E; discriminate E].
  exists w', (wire bench (assembled bench crowded_fix)).
  split; [reflexivity|]. split; [reflexivity|].
  assert (Hw : w' = snd (publish_cycle bench crowded_fix)).
  { vm_compute in E. injection E as <-. vm_compute. reflexivity. }
  subst w'. clear E.
  split; [vm_compute; reflexivity|]. split; [vm_compute; tauto|].
  repeat split; vm_compute; reflexivity.
Qed.

(** C7 as stated fails: on the same label with no fix, and numbers
    rendered so that the sentinel shows, [readGPS] reports no fix and the
    published payload stops after the -1 of Lat: no Lon is published. *)
Lemma readGPS_sentinel_cut :
  exists w' payload,
    fst (readGPS (F64.of_int (-1)) (F64.of_int (-1)) crowded)
    = (false, F64.of_int (-1), F64.of_int (-1))
    /\ publishJson (with_writer shows_position bench) 0 crowded = Some w'
    /\ published (trace w') = [payload]
    /\ In (MqttPublish MQTT_TOPIC_UP payload false true) (trace w')
    /\ String.length payload = 900%nat
    /\ find_text (quoted "Lat" ++ "," ++ quoted "value" ++ ":-1") payload
       = Some 884%nat
    /\ find_text (quoted "Lon") payload = None.
Proof.
  destruct (publishJson (with_writer shows_position bench) 0 crowded)
    as [w'|] eqn:E; [|vm_compute in E; discriminate E].
  exists w', (wire (with_writer shows_position bench)
                (assembled (with_writer shows_position bench) crowded)).
  split; [reflexivity|]. split; [reflexivity|].
  assert (Hw : w' = snd (publish_cycle (with_writer shows_position bench)
                           crowded)).
  { vm_compute in E. injection E as <-. vm_compute. reflexivity. }
  subst w'. clear E.
  split; [vm_compute; reflexivity|]. split; [vm_compute; tauto|].
  repeat split; vm_compute; reflexivity.
Qed.

(** The same from the outside: the label arrives in a POST to /set on the
    tick at 11000 ms, and that tick publishes the cut text. *)
Example loop_publishes_cut_text :
  option_map (fun w => map String.length (published (trace w)))
    (loop (with_http (fun n => if (n =? 0)%nat then Some long_label else None)
             bench)
       1 (set_now 11000 boot))
  = Some [900%nat].
Proof. vm_compute. reflexivity. Qed.

(** C2, amended. [publishJson] has no overflow check: once the session is
    up it attempts exactly one publication, carrying the first 900 bytes of
    the text of the message.  That is the whole text when it fits the
    buffer; a longer text is cut at 900 bytes and sent all the same. *)
Theorem publishJson_sends_prefix (env : Env) (fuel : nat) (w w1 : World) :
  ensure_connected env fuel w = Some w1 ->
  let text := Json.write (writeFloat env) (assembled env w1) in
  let payload := wire env (assembled env w1) in
  exists w' ok,
    publishJson env fuel w = Some w'
    /\ published (trace w') = (published (trace w) ++ [payload])%list
    /\ In (MqttPublish MQTT_TOPIC_UP payload false ok) (trace w')
    /\ payload = string_of_list_ascii (firstn 900 (chars text))
    /\ ((String.length text <= 900)%nat -> payload = text)
    /\ ((900 < String.length text)%nat ->
        String.length payload = 900%nat /\ payload <> text).
Proof.
  intros He. cbv zeta.
  destruct (publishJson_run env fuel w w1 He)
    as (w' & ok & Hp & Htr & Hpub & _).
  exists w', ok. split; [exact Hp|]. split; [exact Hpub|]. split.
  { rewrite Htr. apply in_or_app. right.
    unfold transmission. destruct (Json.serializeJson _ _ _). now left. }
  split; [apply wire_prefix|]. split; [apply wire_fits|].
  intros Hlong. pose proof (wire_cut env _ Hlong) as Hcut.
  split; [exact Hcut|]. intros Heq. rewrite Heq in Hcut. lia.
Qed.

Lemma publishJson_sends_prefix_witness :
  ensure_connected bench 0 flooded = Some flooded
  /\ exists w', publishJson bench 0 flooded = Some w'
       /\ published (trace w') = [wire bench (assembled bench flooded)].
Proof.
  assert (Hup : ensure_connected bench 0 flooded = Some flooded)
    by (vm_compute; reflexivity).
  split; [exact Hup|].
  destruct (publishJson_sends_prefix bench 0 flooded flooded Hup)
    as (w' & ok & Hp & Hpub & _).
  exists w'. split; [exact Hp|]. rewrite Hpub. vm_compute. reflexivity.
Defined.

(** ** The scheduler *)

(** C1 as stated fails: with exactly 10000 ms elapsed since the timer was
    set, [loop] returns without publishing. *)
Lemma loop_idle_at_10000 :
  exists w',
    loop bench 0 (set_now 10000 online) = Some w'
    /\ UInt32.sub (now w') (t0 online) = 10000
    /\ published (trace w') = published (trace online)
    /\ t0 w' = t0 online.
Proof.
  destruct (loop bench 0 (set_now 10000 online)) as [w'|] eqn:E;
    [|vm_compute in E; discriminate E].
  exists w'. split; [reflexivity|].
  vm_compute in E. injection E as <-. vm_compute. auto.
Qed.

Lemma due_spec w :
  (due w = true /\ 10000 < UInt32.sub (now w) (t0 w))
  \/ (due w = false /\ UInt32.sub (now w) (t0 w) <= 10000).
Proof.
  unfold due, millis. cbn [fst].
  destruct (Z.ltb_spec 10000 (UInt32.sub (now w) (t0 w))); auto.
Qed.

(** C1, amended. On a tick [loop] publishes exactly when strictly more
    than 10000 ms (modulo 2^32) have passed between the timer value [t0]
    and the clock read at line 306, and it then sets [t0] to the clock
    read after the publish cycle; otherwise nothing is published and [t0]
    stays.  On the bench, ticks at 0, 1000, ..., 35000 ms from [t0 = 0]
    give exactly three publish cycles, at 11000, 22000 and 33000 ms. *)
Theorem loop_publishes_when_due (env : Env) (fuel : nat) (w w1 : World) :
  loop_service env fuel w = Some w1 ->
  let elapsed := UInt32.sub (now w1) (t0 w) in
  (exists w',
     loop env fuel w = Some w'
     /\ ((10000 < elapsed
          /\ (exists payload,
                published (trace w') = (published (trace w) ++ [payload])%list)
          /\ t0 w' = now w')
         \/
         (elapsed <= 10000
          /\ published (trace w') = published (trace w)
          /\ t0 w' = t0 w)))
  /\ publish_ticks bench 1 (ticks_every 1000 36) boot
     = Some [11000; 22000; 33000].
Proof.
  intros Hs. cbv zeta. split; [|vm_compute; reflexivity].
  unfold loop. rewrite Hs. unfold loop_timer.
  destruct (loop_service_calm env fuel w w1 Hs) as (Hp & Ht & Hup).
  rewrite <- Ht.
  destruct (due_spec w1) as [[Hd He] | [Hd He]]; rewrite Hd.
  - destruct (publishJson_run env fuel w1 w1 (ensure_connected_up env fuel w1 Hup))
      as (w2 & ok & Hpub & _ & Hpl & _).
    rewrite Hpub. exists (set_t0 (now w2) w2). split; [reflexivity|].
    left. split; [exact He|]. split; [|reflexivity].
    exists (wire env (assembled env w1)).
    cbn [trace set_t0]. now rewrite Hpl, Hp.
  - exists w1. split; [reflexivity|]. right. auto.
Qed.

Lemma loop_publishes_when_due_witness :
  exists w1 w',
    loop_service bench 1 (set_now 11000 boot) = Some w1
    /\ loop bench 1 (set_now 11000 boot) = Some w'
    /\ 10000 < UInt32.sub (now w1) (t0 boot)
    /\ t0 w' = now w'.
Proof.
  destruct (loop_service bench 1 (set_now 11000 boot)) as [w1|] eqn:Hs;
    [|vm_compute in Hs; discriminate Hs].
  destruct (loop_publishes_when_due bench 1 (set_now 11000 boot) w1 Hs)
    as [(w' & Hl & Hcases) _].
  exists w1, w'. split; [reflexivity|]. split; [exact Hl|].
  assert (Hn : now w1 = 11000).
  { vm_compute in Hs. injection Hs as <-. reflexivity. }
  destruct Hcases as [(He & _ & Ht) | (He & _)].
  - split; [exact He | exact Ht].
  - cbn [t0 set_now] in He. rewrite Hn in He. vm_compute in He.
    exfalso. apply He. reflexivity.
Defined.

(** ** The broker session *)

Lemma write_status_offline env :
  Json.write (writeFloat env) (status_doc "offline") = offline_text.
Proof. reflexivity. Qed.

Lemma write_status_online env :
  Json.write (writeFloat env) (status_doc "online") = online_text.
Proof. reflexivity. Qed.

(** Reading a C string across a prefix that holds no NUL. *)
Lemma c_str_app (s : string) (rest : list ascii) :
  forallb (fun c => negb (Ascii.eqb c NUL)) (chars s) = true ->
  c_str (chars s ++ rest) = option_map (append s) (c_str rest).
Proof.
  unfold chars. induction s as [|c s IH]; cbn [list_ascii_of_string app forallb].
  - intros _. now destruct (c_str rest).
  - intros H. apply andb_prop in H. destruct H as [Hc Hs].
    cbn [c_str]. destruct (Ascii.eqb c NUL); [discriminate Hc|].
    rewrite (IH Hs). now destruct (c_str rest).
Qed.

(** Line 116 leaves the will buffer holding the text, a space where the
    terminator was, and then whatever the stack held. *)
Lemma willBuf_layout env :
  willBuf env = (chars (offline_text ++ " ") ++ skipn 50 (fresh env 160))%list.
Proof. reflexivity. Qed.

(** The will message [mqtt.connect] is given: never the text alone. *)
Lemma will_message env :
  c_str (willBuf env) =
  option_map (append (offline_text ++ " ")) (c_str (skipn 50 (fresh env 160))).
Proof. rewrite willBuf_layout. apply c_str_app. reflexivity. Qed.

Lemma will_message_not_text env : c_str (willBuf env) <> Some offline_text.
Proof.
  rewrite will_message. destruct (c_str _) as [rest|]; [|discriminate].
  cbn [option_map]. intros H.
  assert (H' : String.length ((offline_text ++ " ") ++ rest)
               = String.length offline_text) by congruence.
  rewrite !length_append in H'. cbn in H'. lia.
Qed.

(** The birth payload is the text of the online document. *)
Lemma birth_payload env w :
  publish_birth env w =
  mqtt_publish env MQTT_TOPIC_STATUS online_text true w.
Proof. reflexivity. Qed.

(** An accepted attempt: connect, then at once the retained birth message. *)
Lemma mqttConnect_attempt_accepted env w :
  broker_accepts env (mqtt_attempts w) = true ->
  let w' := snd (mqttConnect_attempt env w) in
  mqtt_connected w' = true
  /\ now w' = now w
  /\ trace w' =
     (trace w ++
      [ SerialPrint "MQTT conectando...";
        MqttConnect MQTT_CLIENT MQTT_USER MQTT_PASSWD MQTT_TOPIC_STATUS 0
          true (c_str (willBuf env)) true;
        SerialPrintln (Some "OK");
        MqttPublish MQTT_TOPIC_STATUS online_text true
          (broker_takes env (mqtt_publishes w)) ])%list.
Proof.
  intros Ha. cbv zeta. unfold mqttConnect_attempt, bind, emit, mqtt_connect.
  cbn [fst snd mqtt_attempts log]. rewrite Ha. cbn [fst snd].
  rewrite birth_payload. unfold mqtt_publish, ret.
  cbn [fst snd mqtt_connected mqtt_publishes now trace log attempted
       next_publish andb].
  rewrite <- !app_assoc. auto.
Qed.

(** A refused attempt: nothing is published, and the routine waits 5 s. *)
Lemma mqttConnect_attempt_refused env w :
  broker_accepts env (mqtt_attempts w) = false ->
  let w' := snd (mqttConnect_attempt env w) in
  mqtt_connected w' = false
  /\ mqtt_attempts w' = S (mqtt_attempts w)
  /\ now w' = UInt32.add (now w) 5000
  /\ trace w' =
     (trace w ++
      [ SerialPrint "MQTT conectando...";
        MqttConnect MQTT_CLIENT MQTT_USER MQTT_PASSWD MQTT_TOPIC_STATUS 0
          true (c_str (willBuf env)) false;
        SerialPrintf "fail rc=%d, retry 5s"
          (mqtt_state env (S (mqtt_attempts w)));
        Delay 5000 ])%list.
Proof.
  intros Ha. cbv zeta. unfold mqttConnect_attempt, bind, emit, mqtt_connect.
  cbn [fst snd mqtt_attempts log]. rewrite Ha. unfold delay.
  cbn [fst snd mqtt_connected mqtt_attempts now trace log attempted set_now].
  rewrite <- !app_assoc. auto.
Qed.

(** While the broker refuses, the routine does not return. *)
Lemma mqttConnect_loop_refused env fuel :
  forall w, mqtt_connected w = false ->
            (forall n, broker_accepts env n = false) ->
            mqttConnect_loop env fuel w = None.
Proof.
  induction fuel as [|fuel IH]; intros w Hc Hr; cbn [mqttConnect_loop];
    rewrite Hc; [reflexivity|].
  apply IH; [|exact Hr].
  now destruct (mqttConnect_attempt_refused env w (Hr _)).
Qed.

(** C3, the will payload.  Whatever the stack holds, the will message given
    to [mqtt.connect] is the text of the offline document followed by a
    space and the bytes after it up to the next NUL, or it is not
    terminated inside the buffer at all; on the bench it is the text with a
    trailing space.  The birth message is the online text itself. *)
Theorem mqttConnect_will_not_exact (env : Env) :
  c_str (willBuf env) =
  option_map (append (offline_text ++ " ")) (c_str (skipn 50 (fresh env 160)))
  /\ c_str (willBuf env) <> Some offline_text
  /\ c_str (willBuf bench) = Some (offline_text ++ " ")
  /\ (exists w',
        mqttConnect bench 1 boot = Some w'
        /\ trace w' =
           [ MqttSetServer MQTT_HOST MQTT_PORT;
             SerialPrint "MQTT conectando...";
             MqttConnect MQTT_CLIENT MQTT_USER MQTT_PASSWD MQTT_TOPIC_STATUS
               0 true (Some (offline_text ++ " ")) true;
             SerialPrintln (Some "OK");
             MqttPublish MQTT_TOPIC_STATUS online_text true true ]).
Proof.
  split; [apply will_message|]. split; [apply will_message_not_text|].
  split; [vm_compute; reflexivity|].
  eexists. split; vm_compute; reflexivity.
Qed.

(** * Further properties of the sketch *)

(** ** The timer across the rollover of [millis()] *)

Lemma wrap_range z : 0 <= UInt32.wrap z < UInt32.modulus.
Proof. unfold UInt32.wrap, UInt32.modulus. apply Z.mod_pos_bound. lia. Qed.

Lemma wrap_small z : 0 <= z < UInt32.modulus -> UInt32.wrap z = z.
Proof. intros H. unfold UInt32.wrap. now apply Z.mod_small. Qed.

Lemma wrap_add_l a b : UInt32.wrap (UInt32.wrap a + b) = UInt32.wrap (a + b).
Proof.
  unfold UInt32.wrap, UInt32.modulus. now rewrite Zplus_mod_idemp_l.
Qed.

Lemma sub_after t d :
  0 <= d < UInt32.modulus -> UInt32.sub (UInt32.wrap (t + d)) t = d.
Proof.
  intros Hd. unfold UInt32.sub, UInt32.wrap, UInt32.modulus in *.
  rewrite Zminus_mod_idemp_l. replace (t + d - t) with d by lia.
  now apply Z.mod_small.
Qed.

(** X1. The test of line 306 measures real elapsed time even when
    [millis()] has wrapped since [t0] was set: if [d] ms (less than 2^32)
    have passed since then, the tick is due exactly when [d > 10000]. *)
Theorem due_across_rollover (w : World) (d : Z) :
  0 <= d < UInt32.modulus ->
  now w = UInt32.wrap (t0 w + d) ->
  (due w = true <-> 10000 < d).
Proof.
  intros Hd Hn. unfold due, millis. cbn [fst]. rewrite Hn, (sub_after _ _ Hd).
  apply Z.ltb_lt.
Qed.

Lemma due_across_rollover_witness :
  due (set_t0 4294962296 (set_now 5001 boot)) = true.
Proof.
  apply (proj2 (due_across_rollover (set_t0 4294962296 (set_now 5001 boot))
                  10001 ltac:(vm_compute; split; [discriminate | reflexivity])
                  ltac:(vm_compute; reflexivity))).
  lia.
Defined.

(** ** The session routine, attempt by attempt *)

Lemma mqttConnect_attempt_accepted_world env w :
  broker_accepts env (mqtt_attempts w) = true ->
  let w' := snd (mqttConnect_attempt env w) in
  mqtt_connected w' = true
  /\ mqtt_attempts w' = S (mqtt_attempts w)
  /\ mqtt_publishes w' = S (mqtt_publishes w)
  /\ now w' = now w
  /\ trace w' =
     (trace w ++ accepted_attempt env (broker_takes env (mqtt_publishes w)))%list.
Proof.
  intros Ha. cbv zeta. unfold mqttConnect_attempt, bind, emit, mqtt_connect.
  cbn [fst snd mqtt_attempts log]. rewrite Ha. cbn [fst snd].
  rewrite birth_payload. unfold mqtt_publish, ret, accepted_attempt.
  cbn [fst snd mqtt_connected mqtt_attempts mqtt_publishes now trace log
       attempted next_publish andb].
  rewrite <- !app_assoc. auto.
Qed.

Lemma mqttConnect_loop_backoff env k :
  forall fuel w,
    mqtt_connected w = false ->
    (forall j, (j < k)%nat -> broker_accepts env (mqtt_attempts w + j) = false) ->
    broker_accepts env (mqtt_attempts w + k) = true ->
    (k < fuel)%nat ->
    exists w',
      mqttConnect_loop env fuel w = Some w'
      /\ mqtt_connected w' = true
      /\ mqtt_attempts w' = (mqtt_attempts w + S k)%nat
      /\ mqtt_publishes w' = S (mqtt_publishes w)
      /\ now w' = Nat.iter k (fun t => UInt32.add t 5000) (now w)
      /\ trace w' =
         (trace w ++ refused_attempts env (mqtt_attempts w) k
            ++ accepted_attempt env (broker_takes env (mqtt_publishes w)))%list.
Proof.
  induction k as [|k IH]; intros fuel w Hc Hr Ha Hf;
    (destruct fuel as [|fuel]; [lia|]); cbn [mqttConnect_loop]; rewrite Hc.
  - rewrite Nat.add_0_r in Ha.
    destruct (mqttConnect_attempt_accepted_world env w Ha)
      as (Hup & Hat & Hpub & Hnow & Htr).
    exists (snd (mqttConnect_attempt env w)).
    destruct fuel; cbn [mqttConnect_loop]; rewrite Hup;
      (split; [reflexivity|]); cbn [Nat.iter refused_attempts app];
      repeat split; auto; lia.
  - assert (Hr0 : broker_accepts env (mqtt_attempts w) = false).
    { rewrite <- (Nat.add_0_r (mqtt_attempts w)). apply Hr. lia. }
    destruct (mqttConnect_attempt_refused env w Hr0) as (Hd & Hat & Hnow & Htr).
    set (w1 := snd (mqttConnect_attempt env w)) in *.
    assert (Hpub : mqtt_publishes w1 = mqtt_publishes w).
    { unfold w1, mqttConnect_attempt, bind, emit, mqtt_connect.
      cbn [fst snd mqtt_attempts log]. rewrite Hr0. reflexivity. }
    destruct (IH fuel w1 Hd) as (w' & Hl & Hup & Hat' & Hpub' & Hnow' & Htr').
    + intros j Hj. rewrite Hat.
      replace (S (mqtt_attempts w) + j)%nat with (mqtt_attempts w + S j)%nat
        by lia.
      apply Hr. lia.
    + rewrite Hat.
      now replace (S (mqtt_attempts w) + k)%nat
        with (mqtt_attempts w + S k)%nat by lia.
    + lia.
    + exists w'. split; [exact Hl|]. split; [exact Hup|].
      split; [lia|]. split; [congruence|]. split.
      * rewrite Hnow', Hnow, Nat.iter_succ_r. reflexivity.
      * rewrite Htr', Htr, Hat, Hpub. cbn [refused_attempts].
        unfold refused_attempt. rewrite <- !app_assoc. reflexivity.
Qed.

(** X2. When the broker refuses the next [k] connects and accepts the one
    after, [mqttConnect] returns (given room for [k + 1] passes) after
    exactly [k] refused attempts, each followed by the 5000 ms wait, and
    one accepted attempt: the birth message is published once, retained,
    right after the accepted connect and never after a refused one. *)
Theorem mqttConnect_backoff (env : Env) (fuel k : nat) (w : World) :
  mqtt_connected w = false ->
  (forall j, (j < k)%nat -> broker_accepts env (mqtt_attempts w + j) = false) ->
  broker_accepts env (mqtt_attempts w + k) = true ->
  (k < fuel)%nat ->
  exists w',
    mqttConnect env fuel w = Some w'
    /\ mqtt_connected w' = true
    /\ mqtt_attempts w' = (mqtt_attempts w + S k)%nat
    /\ now w' = Nat.iter k (fun t => UInt32.add t 5000) (now w)
    /\ trace w' =
       (trace w ++ MqttSetServer MQTT_HOST MQTT_PORT
          :: refused_attempts env (mqtt_attempts w) k
          ++ accepted_attempt env (broker_takes env (mqtt_publishes w)))%list.
Proof.
  intros Hc Hr Ha Hf. unfold mqttConnect.
  destruct (mqttConnect_loop_backoff env k fuel
              (log (MqttSetServer MQTT_HOST MQTT_PORT) w) Hc Hr Ha Hf)
    as (w' & Hl & Hup & Hat & _ & Hnow & Htr).
  exists w'. split; [exact Hl|]. split; [exact Hup|]. split; [exact Hat|].
  split; [exact Hnow|]. rewrite Htr. cbn [trace log mqtt_attempts mqtt_publishes].
  rewrite <- app_assoc. reflexivity.
Qed.

(** Two refusals before the broker accepts. *)
Lemma mqttConnect_backoff_witness :
  exists w',
    mqttConnect
      (with_broker (fun n => (2 <=? n)%nat) bench) 3 boot = Some w'
    /\ now w' = 10000.
Proof.
  destruct (mqttConnect_backoff (with_broker (fun n => (2 <=? n)%nat) bench)
              3 2 boot)
    as (w' & Hc & _ & _ & Hnow & _).
  - reflexivity.
  - intros [|[|j]] Hj; [reflexivity | reflexivity | lia].
  - reflexivity.
  - lia.
  - exists w'. split; [exact Hc|]. rewrite Hnow. vm_compute. reflexivity.
Defined.

(** X3. While the session is down and the broker refuses every connect, a
    tick of [loop] does not complete, whatever the number of passes
    allowed: nothing is published and the GPS parser is not fed. *)
Theorem loop_stalls_without_broker (env : Env) (fuel : nat) (w : World) :
  mqtt_connected w = false ->
  (forall n, broker_accepts env n = false) ->
  loop env fuel w = None /\ publishJson env fuel w = None.
Proof.
  intros Hc Hr. split.
  - unfold loop, loop_service, ensure_connected.
    assert (Hc' : mqtt_connected (snd (server_handleClient env w)) = false).
    { unfold server_handleClient, handleSet, saveLocationToEEPROM, bind,
        emit, ret. cbn [fst snd].
      destruct (http_post env _) as [arg|]; [|exact Hc].
      destruct (0 <? String.length (trim arg))%nat; exact Hc. }
    rewrite Hc'. unfold mqttConnect.
    now rewrite mqttConnect_loop_refused.
  - unfold publishJson, ensure_connected. rewrite Hc. unfold mqttConnect.
    now rewrite mqttConnect_loop_refused.
Qed.

Lemma loop_stalls_without_broker_witness :
  loop (with_broker (fun _ => false) bench) 100 boot = None
  /\ publishJson (with_broker (fun _ => false) bench) 100 boot = None.
Proof.
  apply (loop_stalls_without_broker (with_broker (fun _ => false) bench)
           100 boot); reflexivity.
Defined.

(** ** The footprint of a publish cycle *)

Lemma moved_trans d1 d2 t t1 t2 :
  moved d1 t t1 -> moved d2 t1 t2 -> moved (d1 + d2) t t2.
Proof.
  unfold moved. intros [[-> ->] | ->] [[-> ->] | ->].
  - left. split; reflexivity.
  - right. reflexivity.
  - right. now rewrite Z.add_0_r.
  - right. rewrite wrap_add_l. f_equal. lia.
Qed.

Lemma steady_refl w : steady w w.
Proof. repeat split. Qed.

Lemma steady_trans w1 w2 w3 : steady w1 w2 -> steady w2 w3 -> steady w1 w3.
Proof. unfold steady. intuition congruence. Qed.

Lemma sensed_refl w : sensed 0 0 0 0 w w.
Proof.
  split; [apply steady_refl|]. repeat split; try lia.
  - left. auto.
  - exists []. now rewrite app_nil_r.
Qed.

Lemma sensed_trans a b c d a' b' c' d' w1 w2 w3 :
  sensed a b c d w1 w2 -> sensed a' b' c' d' w2 w3 ->
  sensed (a + a') (b + b') (c + c') (d + d') w1 w3.
Proof.
  intros (S1 & A1 & B1 & C1 & M1 & e1 & T1 & F1)
         (S2 & A2 & B2 & C2 & M2 & e2 & T2 & F2).
  split; [eapply steady_trans; eassumption|].
  split; [lia|]. split; [lia|]. split; [lia|].
  split; [eapply moved_trans; eassumption|].
  exists (e1 ++ e2)%list. split.
  - now rewrite T2, T1, app_assoc.
  - now rewrite forallb_app, F1, F2.
Qed.

(** The same footprint under other names for its figures. *)
Lemma sensed_as a b c d a' b' c' d' w w' :
  sensed a b c d w w' -> a = a' -> b = b' -> c = c' -> d = d' ->
  sensed a' b' c' d' w w'.
Proof. now intros H <- <- <- <-. Qed.

(** A step that logs sensor traffic and moves one cursor or the clock. *)
Ltac sensed_step :=
  split; [repeat split|];
  cbn [mhz_reads sds_reads dallas_reads now trace log set_now set_listening
       next_mhz next_sds next_dallas converted];
  split; [lia|]; split; [lia|]; split; [lia|];
  split; [first [left; split; reflexivity | right; reflexivity]|];
  rewrite <- ?app_assoc; eexists; split; reflexivity.

Lemma sensed_readCO2 env w : sensed 1 0 0 0 w (snd (readCO2 env w)).
Proof.
  unfold readCO2, bind, listen, mhz_read, ret. cbn [fst snd]. sensed_step.
Qed.

Lemma sensed_readTemperatureC env w :
  sensed 0 0 3 0 w (snd (readTemperatureC env w)).
Proof.
  pose proof (readTemperatureC_run env w) as H. cbv zeta in H. rewrite H.
  cbn [snd]. unfold converted. sensed_step.
Qed.

Lemma sensed_readPM25_loop env n :
  forall v w,
    exists b,
      (b <= n)%nat
      /\ sensed 0 b 0 (200 * Z.of_nat b) w (snd (readPM25_loop env n v w))
      /\ (F32.isfinite (fst (readPM25_loop env n v w)) = false -> b = n)
      /\ (F32.isfinite v = false -> (0 < n)%nat -> (0 < b)%nat).
Proof.
  induction n as [|n IH]; intros v w.
  - exists 0%nat. cbn [readPM25_loop]. unfold ret. cbn [fst snd].
    split; [lia|]. split; [apply sensed_refl|]. split; [auto | lia].
  - cbn [readPM25_loop]. destruct (F32.isfinite v) eqn:Hv.
    + exists 0%nat. unfold ret. cbn [fst snd].
      split; [lia|]. split; [apply sensed_refl|].
      split; intros; congruence.
    + unfold bind, sds_read, delay. cbn [fst snd].
      match goal with
      | |- context [readPM25_loop env n ?v1 ?w1] =>
          destruct (IH v1 w1) as (b & Hb & Hs & Hf & _);
          assert (H1 : sensed 0 1 0 200 w w1) by sensed_step
      end.
      exists (S b). split; [lia|]. split; [|split; [|lia]].
      * eapply sensed_as;
          [exact (sensed_trans _ _ _ _ _ _ _ _ _ _ _ H1 Hs) | lia ..].
      * intros H. f_equal. apply Hf, H.
Qed.

Lemma sensed_readPM25 env w :
  exists b,
    (1 <= b <= 5)%nat /\ sensed 0 b 0 (pm_wait b) w (snd (readPM25 env w)).
Proof.
  set (w0 := log (Listen SdsSerial) (set_listening SdsSerial w)).
  assert (H0 : sensed 0 0 0 0 w w0) by (unfold w0; sensed_step).
  assert (Hrun : snd (readPM25 env w) =
    snd ((if F32.isfinite (fst (readPM25_loop env 4 F32.NAN w0))
          then ret (fst (readPM25_loop env 4 F32.NAN w0))
          else
            emit SdsWakeup ;; delay 800 ;; emit SdsSetActiveReportingMode ;;
            emit SdsSetContinuousWorkingPeriod ;;
            pm <- sds_read env ;;
            ret (if isOk pm then pm25 pm
                 else fst (readPM25_loop env 4 F32.NAN w0)))
           (snd (readPM25_loop env 4 F32.NAN w0)))).
  { unfold readPM25, bind at 1, listen. fold w0. unfold bind at 1.
    destruct (readPM25_loop env 4 F32.NAN w0) as [v w1]. cbn [fst snd].
    unfold bind at 1.
    match goal with
    | |- snd (let (_, _) := ?p in _) = _ => destruct p
    end. reflexivity. }
  rewrite Hrun. clear Hrun.
  destruct (sensed_readPM25_loop env 4 F32.NAN w0) as (b & Hb & Hs & Hf & Hp).
  destruct (readPM25_loop env 4 F32.NAN w0) as [v w1]. cbn [fst snd] in *.
  destruct (F32.isfinite v) eqn:Hv.
  - exists b. unfold ret. cbn [snd].
    assert (0 < b)%nat by (apply Hp; [reflexivity | lia]).
    split; [lia|].
    eapply sensed_as;
      [exact (sensed_trans _ _ _ _ _ _ _ _ _ _ _ H0 Hs) | try lia ..].
    unfold pm_wait. destruct (Nat.leb_spec b 4); lia.
  - rewrite (Hf eq_refl) in Hs. exists 5%nat. split; [lia|].
    unfold bind, emit, delay, sds_read, ret. cbn [fst snd].
    match goal with
    | |- sensed _ _ _ _ _ ?w2 =>
        assert (H2 : sensed 0 1 0 800 w1 w2) by sensed_step
    end.
    eapply sensed_as;
      [exact (sensed_trans _ _ _ _ _ _ _ _ _ _ _
                (sensed_trans _ _ _ _ _ _ _ _ _ _ _ H0 Hs) H2)
      | reflexivity ..].
Qed.

Lemma sensed_collect env w :
  exists b,
    (1 <= b <= 5)%nat /\ sensed 1 b 3 (pm_wait b) w (snd (collect env w)).
Proof.
  pose proof (collect_readings env w) as H. cbv zeta in H. rewrite H.
  cbn [snd]. clear H.
  pose proof (sensed_readCO2 env w) as Hc.
  destruct (sensed_readPM25 env (snd (readCO2 env w))) as (b & Hb & Hp).
  pose proof (sensed_readTemperatureC env (snd (readPM25 env (snd (readCO2 env w)))))
    as Ht.
  exists b. split; [exact Hb|].
  eapply sensed_as;
    [exact (sensed_trans _ _ _ _ _ _ _ _ _ _ _
              (sensed_trans _ _ _ _ _ _ _ _ _ _ _ Hc Hp) Ht)
    | try lia ..].
Qed.

Lemma delivered_app (a b : list Event) :
  delivered (a ++ b) = (delivered a ++ delivered b)%list.
Proof.
  induction a as [|e a IH]; [reflexivity|].
  destruct e; cbn [delivered app]; auto.
  destruct ok; [|exact IH].
  destruct (String.eqb topic MQTT_TOPIC_UP); cbn [app]; now rewrite IH.
Qed.

Lemma delivered_traffic evs :
  forallb sensor_traffic evs = true -> delivered evs = [].
Proof.
  induction evs as [|e evs IH]; [reflexivity|].
  cbn [forallb]. intros H. apply andb_true_iff in H. destruct H as [He Hr].
  destruct e; try discriminate He; cbn [delivered]; auto.
Qed.

Lemma published_traffic evs :
  forallb sensor_traffic evs = true -> published evs = [].
Proof.
  induction evs as [|e evs IH]; [reflexivity|].
  cbn [forallb]. intros H. apply andb_true_iff in H. destruct H as [He Hr].
  destruct e; try discriminate He; cbn [published]; auto.
Qed.

Lemma transmission_last env doc ok tr :
  last (tr ++ transmission env doc ok) MqttLoop =
  SerialPrintln (Some
    (if ok then "[STATUS] Published OK" else "[STATUS] Publish FAILED")).
Proof.
  unfold transmission. destruct (Json.serializeJson _ _ _).
  match goal with
  | |- last (tr ++ [?a; ?b; ?c; ?d]) _ = _ =>
      change [a; b; c; d] with ([a; b; c] ++ [d])%list
  end.
  rewrite app_assoc. apply last_last.
Qed.

Lemma transmission_delivered env doc ok :
  delivered (transmission env doc ok) = if ok then [wire env doc] else [].
Proof.
  unfold transmission. destruct (Json.serializeJson _ _ _).
  now destruct ok.
Qed.

Lemma transmission_published env doc ok :
  published (transmission env doc ok) = [wire env doc].
Proof.
  unfold transmission. now destruct (Json.serializeJson _ _ _).
Qed.

(** After the sensor phase: one publish call and three console lines. *)
Lemma publish_cycle_outcome env w :
  let wc := snd (collect env w) in
  let ok := mqtt_connected wc && broker_takes env (mqtt_publishes wc) in
  let w' := snd (publish_cycle env w) in
  fst (publish_cycle env w) = ok
  /\ trace w' = (trace wc ++ transmission env (assembled env w) ok)%list
  /\ mqtt_publishes w' = S (mqtt_publishes wc)
  /\ mqtt_connected w' = mqtt_connected wc
  /\ mqtt_attempts w' = mqtt_attempts wc
  /\ LOCATION w' = LOCATION wc /\ t0 w' = t0 wc
  /\ gps w' = gps wc /\ gps_feeds w' = gps_feeds wc
  /\ http_polls w' = http_polls wc
  /\ mhz_reads w' = mhz_reads wc /\ sds_reads w' = sds_reads wc
  /\ dallas_reads w' = dallas_reads wc
  /\ now w' = now wc.
Proof.
  cbv zeta. unfold publish_cycle, assembled, bind.
  destruct (collect env w) as [r wc]. cbn [fst snd].
  unfold transmit, transmission, wire.
  destruct (Json.serializeJson _ _ _) as [n buf].
  unfold bind, mqtt_publish, emit, ret.
  cbn [fst snd trace log next_publish mqtt_publishes mqtt_connected
       mqtt_attempts LOCATION t0 gps gps_feeds http_polls mhz_reads sds_reads
       dallas_reads now].
  rewrite <- !app_assoc. repeat split.
Qed.

(** The trace of a cycle: sensor traffic, then the publication. *)
Lemma publish_cycle_events env w :
  exists evs,
    forallb sensor_traffic evs = true
    /\ trace (snd (publish_cycle env w)) =
       (trace w ++ evs
          ++ transmission env (assembled env w)
               (mqtt_connected w && broker_takes env (mqtt_publishes w)))%list.
Proof.
  destruct (publish_cycle_outcome env w) as (_ & Htr & _).
  destruct (sensed_collect env w)
    as (b & _ & (_ & _ & _ & Sup & _ & Spub & _) & _ & _ & _ & _
        & evs & Se & Sf).
  exists evs. split; [exact Sf|].
  rewrite Htr, Se, Sup, Spub. now rewrite <- app_assoc.
Qed.

(** X4. One publish cycle (lines 230-256) reads the CO2 sensor once, the
    probe three times and the particulate sensor between one and five
    times, spends in [delay] 200 ms per particulate read of the loop or
    1600 ms when the recovery ran, hands exactly one message to the
    client, and leaves the session, the label, the timer of [loop], the
    decoder and the web server alone: its trace is sensor traffic followed
    by the publication and its three console lines. *)
Theorem publish_cycle_footprint (env : Env) (w : World) :
  let w' := snd (publish_cycle env w) in
  let ok := mqtt_connected w && broker_takes env (mqtt_publishes w) in
  mqtt_publishes w' = S (mqtt_publishes w)
  /\ mqtt_connected w' = mqtt_connected w
  /\ mqtt_attempts w' = mqtt_attempts w
  /\ LOCATION w' = LOCATION w /\ t0 w' = t0 w
  /\ gps w' = gps w /\ gps_feeds w' = gps_feeds w
  /\ http_polls w' = http_polls w
  /\ mhz_reads w' = S (mhz_reads w)
  /\ dallas_reads w' = (dallas_reads w + 3)%nat
  /\ (exists b,
        (1 <= b <= 5)%nat
        /\ sds_reads w' = (sds_reads w + b)%nat
        /\ now w' = UInt32.wrap (now w + pm_wait b))
  /\ (exists evs,
        forallb sensor_traffic evs = true
        /\ trace w' =
           (trace w ++ evs ++ transmission env (assembled env w) ok)%list).
Proof.
  cbv zeta.
  destruct (publish_cycle_outcome env w)
    as (_ & Htr & Hpub & Hup & Hat & Hloc & Ht0 & Hg & Hgf & Hh & Hm & Hs
        & Hd & Hn).
  destruct (sensed_collect env w)
    as (b & Hb & (Sg & Sgf & Sh & Sup & Sat & Spub & Sloc & St0)
        & Sm & Ss & Sd & Sn & evs & Se & Sf).
  rewrite Hpub, Hup, Hat, Hloc, Ht0, Hg, Hgf, Hh, Hm, Hs, Hd, Hn.
  repeat (split; [first [congruence | lia]|]).
  split.
  - exists b. split; [exact Hb|]. split; [exact Ss|].
    destruct Sn as [[H0 _]|H]; [|exact H].
    unfold pm_wait in H0. destruct (b <=? 4)%nat; lia.
  - exact (publish_cycle_events env w).
Qed.

(** ** Ticks of [loop] with the session up *)

(** With the session up, lines 296-303 serve the web server once, run the
    client's loop once and feed the decoder once, and return at once. *)
Lemma loop_service_up env fuel w :
  mqtt_connected w = true ->
  exists w1,
    loop_service env fuel w = Some w1
    /\ mqtt_connected w1 = true
    /\ now w1 = now w /\ t0 w1 = t0 w
    /\ mhz_reads w1 = mhz_reads w /\ sds_reads w1 = sds_reads w
    /\ dallas_reads w1 = dallas_reads w
    /\ mqtt_publishes w1 = mqtt_publishes w
    /\ mqtt_attempts w1 = mqtt_attempts w
    /\ http_polls w1 = S (http_polls w)
    /\ gps_feeds w1 = S (gps_feeds w)
    /\ gps w1 = gps_encode env (gps_feeds w) (gps w)
    /\ published (trace w1) = published (trace w)
    /\ delivered (trace w1) = delivered (trace w).
Proof.
  intros Hc. unfold loop_service.
  set (ws := snd (server_handleClient env w)).
  assert (Hs : mqtt_connected ws = true
               /\ now ws = now w /\ t0 ws = t0 w
               /\ mhz_reads ws = mhz_reads w /\ sds_reads ws = sds_reads w
               /\ dallas_reads ws = dallas_reads w
               /\ mqtt_publishes ws = mqtt_publishes w
               /\ mqtt_attempts ws = mqtt_attempts w
               /\ http_polls ws = S (http_polls w)
               /\ gps_feeds ws = gps_feeds w
               /\ gps ws = gps w
               /\ published (trace ws) = published (trace w)
               /\ delivered (trace ws) = delivered (trace w)).
  { unfold ws, server_handleClient, handleSet, saveLocationToEEPROM, bind,
      emit, ret. cbn [fst snd].
    destruct (http_post env _) as [arg|];
      [destruct (0 <? String.length (trim arg))%nat|];
      cbn [fst snd trace log set_LOCATION next_poll mqtt_connected now t0
           mhz_reads sds_reads dallas_reads mqtt_publishes mqtt_attempts
           http_polls gps_feeds gps];
      rewrite ?published_app, ?delivered_app; cbn [published delivered];
      rewrite ?app_nil_r; repeat split; auto. }
  destruct Hs as (Hup & Hn & Ht & Hm & Hsd & Hd & Hp & Ha & Hh & Hgf & Hg
                  & Hpl & Hdl).
  rewrite (ensure_connected_up env fuel ws Hup).
  eexists. split; [reflexivity|].
  unfold bind, emit, feed_gps, bind, listen, ret. cbn [fst snd].
  destruct (listening (log MqttLoop ws)) as [[]|];
    cbn [fst snd trace log set_listening fed mqtt_connected now t0
         mhz_reads sds_reads dallas_reads mqtt_publishes mqtt_attempts
         http_polls gps_feeds gps];
    rewrite ?published_app, ?delivered_app; cbn [published delivered];
    rewrite ?app_nil_r, Hgf, Hg; repeat split; auto.
Qed.

(** X5. With the session up and the timer not yet due, a tick of [loop]
    returns at once: it serves the web server once and feeds the decoder
    once, and it neither waits, nor reads a sensor, nor publishes, nor
    touches the timer. *)
Theorem loop_idle_tick (env : Env) (fuel : nat) (w : World) :
  mqtt_connected w = true ->
  due w = false ->
  exists w',
    loop env fuel w = Some w'
    /\ now w' = now w /\ t0 w' = t0 w
    /\ mhz_reads w' = mhz_reads w /\ sds_reads w' = sds_reads w
    /\ dallas_reads w' = dallas_reads w
    /\ mqtt_publishes w' = mqtt_publishes w
    /\ mqtt_attempts w' = mqtt_attempts w
    /\ mqtt_connected w' = true
    /\ http_polls w' = S (http_polls w)
    /\ gps_feeds w' = S (gps_feeds w)
    /\ gps w' = gps_encode env (gps_feeds w) (gps w).
Proof.
  intros Hc Hd.
  destruct (loop_service_up env fuel w Hc)
    as (w1 & Hs & Hup & Hn & Ht & Hm & Hsd & Hda & Hp & Ha & Hh & Hgf & Hg & _).
  exists w1. unfold loop. rewrite Hs. unfold loop_timer.
  assert (Hd1 : due w1 = false).
  { unfold due, millis in *. cbn [fst] in *. now rewrite Hn, Ht. }
  rewrite Hd1. repeat split; assumption.
Qed.

Lemma loop_idle_tick_witness :
  exists w', loop bench 0 online = Some w' /\ now w' = now online.
Proof.
  destruct (loop_idle_tick bench 0 online eq_refl eq_refl)
    as (w' & Hl & Hn & _).
  exists w'. split; [exact Hl | exact Hn].
Defined.

(** X6. With the session up and the timer due, a tick of [loop] hands
    exactly one message to the client; the broker receives it exactly when
    [mqtt.publish] succeeds.  A failed publication is reported on the
    console and dropped: the timer is reset all the same, so the next tick
    is not due and nothing is sent again. *)
Theorem loop_publish_not_retried (env : Env) (fuel : nat) (w : World) :
  mqtt_connected w = true ->
  due w = true ->
  exists w1 w',
    loop_service env fuel w = Some w1
    /\ loop env fuel w = Some w'
    /\ published (trace w') =
       (published (trace w) ++ [wire env (assembled env w1)])%list
    /\ delivered (trace w') =
       (delivered (trace w)
        ++ (if broker_takes env (mqtt_publishes w)
            then [wire env (assembled env w1)] else []))%list
    /\ last (trace w') MqttLoop =
       SerialPrintln (Some
         (if broker_takes env (mqtt_publishes w)
          then "[STATUS] Published OK" else "[STATUS] Publish FAILED"))
    /\ mqtt_publishes w' = S (mqtt_publishes w)
    /\ due w' = false.
Proof.
  intros Hc Hd.
  destruct (loop_service_up env fuel w Hc)
    as (w1 & Hs & Hup & Hn & Ht & _ & _ & _ & Hp & _ & _ & _ & _ & Hpl & Hdl).
  assert (Hd1 : due w1 = true).
  { unfold due, millis in *. cbn [fst] in *. now rewrite Hn, Ht. }
  exists w1, (set_t0 (now (snd (publish_cycle env w1)))
                (snd (publish_cycle env w1))).
  split; [exact Hs|]. split.
  { unfold loop. rewrite Hs. unfold loop_timer. rewrite Hd1.
    unfold publishJson. now rewrite (ensure_connected_up env fuel w1 Hup). }
  destruct (publish_cycle_events env w1) as (evs & Hf & Htr).
  destruct (publish_cycle_outcome env w1) as (_ & _ & Hpub & _).
  destruct (sensed_collect env w1)
    as (_ & _ & (_ & _ & _ & _ & _ & Spub & _) & _).
  cbn [trace set_t0 mqtt_publishes]. rewrite Htr, Hup, Hp. cbn [andb].
  split; [|split; [|split; [|split]]].
  - rewrite !published_app, (published_traffic evs Hf),
      transmission_published, Hpl. reflexivity.
  - rewrite !delivered_app, (delivered_traffic evs Hf),
      transmission_delivered, Hdl. reflexivity.
  - rewrite app_assoc. apply transmission_last.
  - now rewrite Hpub, Spub, Hp.
  - unfold due, millis. cbn [fst now t0 set_t0].
    unfold UInt32.sub. now rewrite Z.sub_diag.
Qed.

Lemma loop_publish_not_retried_witness :
  exists w1 w',
    loop_service (with_takes (fun _ => false) bench) 0 (set_now 10001 online)
    = Some w1
    /\ loop (with_takes (fun _ => false) bench) 0 (set_now 10001 online)
       = Some w'
    /\ delivered (trace w') = delivered (trace (set_now 10001 online))
    /\ due w' = false.
Proof.
  destruct (loop_publish_not_retried (with_takes (fun _ => false) bench) 0
              (set_now 10001 online) eq_refl eq_refl)
    as (w1 & w' & Hs & Hl & _ & Hd & _ & _ & Hdue).
  exists w1, w'. split; [exact Hs|]. split; [exact Hl|].
  split; [|exact Hdue]. rewrite Hd. cbn [broker_takes with_takes].
  apply app_nil_r.
Defined.

(** ** The header of the message *)

(** X7. The message of a cycle opens with the header and its six fields in
    source order (lines 235-242): user, device, time stamp, topic, label,
    requeue flag, followed by the metrics.  The time stamp is the one of
    the clock after the sensor phase, 200 to 1600 ms of [delay] after the
    cycle began; the label is the one the cycle began with. *)
Theorem publishJson_header (env : Env) (w : World) :
  exists b ms,
    (1 <= b <= 5)%nat
    /\ assembled env w =
       Json.Object
         [ ("header",
            Json.Object
              [ ("userUUID", Json.Str USER_UUID);
                ("deviceId", Json.Str MQTT_CLIENT);
                ("timeStamp",
                 Json.Str
                   (iso8601LocalNow env (UInt32.wrap (now w + pm_wait b))));
                ("topic", Json.Str MQTT_TOPIC_UP);
                ("location", Json.Str (LOCATION w));
                ("shouldRequeue", Json.Bool true) ]);
           ("metrics", Json.Array ms) ]
    /\ List.length ms = 5%nat.
Proof.
  destruct (sensed_collect env w)
    as (b & Hb & (_ & _ & _ & _ & _ & _ & Hloc & _) & _ & _ & _ & Hn & _).
  assert (Hnow : now (snd (collect env w)) = UInt32.wrap (now w + pm_wait b)).
  { destruct Hn as [[H0 _]|H]; [|exact H].
    unfold pm_wait in H0. destruct (b <=? 4)%nat; lia. }
  exists b. eexists. split; [exact Hb|].
  rewrite assembled_message, Hloc, Hnow. unfold message, header, metrics.
  split; reflexivity.
Qed.

(** ** The location label *)

Lemma trim_right_idem s : trim_right (trim_right s) = trim_right s.
Proof.
  induction s as [|c rest IH]; [reflexivity|]. cbn [trim_right].
  destruct (trim_right rest) as [|k ks] eqn:E.
  - destruct (isspace c) eqn:Hc; [reflexivity|].
    cbn [trim_right]. now rewrite Hc.
  - cbn [trim_right]. cbn [trim_right] in IH. now rewrite IH.
Qed.

Lemma trim_left_clean s : starts_clean (trim_left s).
Proof.
  induction s as [|c rest IH]; [exact I|]. cbn [trim_left].
  destruct (isspace c) eqn:Hc; [exact IH | exact Hc].
Qed.

Lemma trim_right_clean s : starts_clean s -> starts_clean (trim_right s).
Proof.
  destruct s as [|c rest]; [auto|]. cbn [starts_clean trim_right]. intros Hc.
  destruct (trim_right rest); [rewrite Hc|]; exact Hc.
Qed.

Lemma trim_left_of_clean s : starts_clean s -> trim_left s = s.
Proof.
  destruct s as [|c rest]; [auto|]. cbn [starts_clean trim_left].
  now intros ->.
Qed.

(** [String::trim()] applied twice is [trim()]. *)
Lemma trim_idem s : trim (trim s) = trim s.
Proof.
  unfold trim.
  rewrite (trim_left_of_clean (trim_right (trim_left s))).
  - apply trim_right_idem.
  - apply trim_right_clean, trim_left_clean.
Qed.

Lemma length_pos_not_empty s : (0 <? String.length s)%nat = true -> s <> "".
Proof. now destruct s. Qed.

Lemma handleSet_cases arg w :
  (trim arg = "" /\ snd (handleSet arg w) = w)
  \/ (tidy (trim arg)
      /\ LOCATION (snd (handleSet arg w)) = trim arg
      /\ trace (snd (handleSet arg w)) =
         (trace w ++ [EepromPut (substring 0 31 (trim arg))])%list).
Proof.
  unfold handleSet, saveLocationToEEPROM, bind, emit, ret.
  destruct (0 <? String.length (trim arg))%nat eqn:Hl.
  - right. cbn [fst snd LOCATION trace log set_LOCATION].
    split; [|split; reflexivity].
    split; [apply trim_idem | now apply length_pos_not_empty].
  - left. split; [|reflexivity]. now destruct (trim arg).
Qed.

(** X8. [handleSet] never empties the label and never stores white space
    around it: an argument that is blank once trimmed changes nothing and
    writes nothing; any other argument replaces the label by its trimmed
    text, which is not empty and which [trim()] leaves as it is, and the
    first 31 characters of that text go to the EEPROM. *)
Theorem handleSet_keeps_label_tidy (arg : string) (w : World) :
  tidy (LOCATION w) ->
  tidy (LOCATION (snd (handleSet arg w)))
  /\ ((trim arg = "" /\ snd (handleSet arg w) = w)
      \/ (trim arg <> ""
          /\ LOCATION (snd (handleSet arg w)) = trim arg
          /\ trace (snd (handleSet arg w)) =
             (trace w ++ [EepromPut (substring 0 31 (trim arg))])%list)).
Proof.
  intros Hw. destruct (handleSet_cases arg w) as [[He Hs]|(Ht & Hl & Htr)].
  - rewrite Hs. split; [exact Hw|]. left. auto.
  - rewrite Hl. split; [exact Ht|]. right. split; [apply Ht | auto].
Qed.

Lemma handleSet_keeps_label_tidy_witness :
  tidy (LOCATION (snd (handleSet "  Lab 2 " boot))).
Proof.
  apply (handleSet_keeps_label_tidy "  Lab 2 " boot).
  split; [reflexivity | discriminate].
Defined.

(** X9. A completed tick of [loop] keeps the label tidy: the web handler
    is the only code that writes it, and the session and publish routines
    leave it alone. *)
Theorem loop_keeps_label_tidy (env : Env) (fuel : nat) (w w' : World) :
  loop env fuel w = Some w' ->
  tidy (LOCATION w) ->
  tidy (LOCATION w')
  /\ (LOCATION w' = LOCATION w
      \/ exists arg,
           http_post env (http_polls w) = Some arg
           /\ LOCATION w' = trim arg).
Proof.
  unfold loop, loop_service. intros Hl Hw.
  assert (Hs : tidy (LOCATION (snd (server_handleClient env w)))
               /\ (LOCATION (snd (server_handleClient env w)) = LOCATION w
                   \/ exists arg,
                        http_post env (http_polls w) = Some arg
                        /\ LOCATION (snd (server_handleClient env w))
                           = trim arg)).
  { unfold server_handleClient, bind, emit. cbn [fst snd http_polls log].
    destruct (http_post env (http_polls w)) as [arg|] eqn:Hp.
    - set (w0 := next_poll (log ServerHandleClient w)).
      destruct (handleSet_cases arg w0) as [[_ Hs]|(Ht & Hloc & _)].
      + rewrite Hs. split; [exact Hw | left; reflexivity].
      + rewrite Hloc. split; [exact Ht|]. right. exists arg. auto.
    - unfold ret. cbn [snd]. split; [exact Hw | left; reflexivity]. }
  set (ws := snd (server_handleClient env w)) in *.
  destruct (ensure_connected env fuel ws) as [wc|] eqn:He; [|discriminate].
  apply ensure_connected_calm in He. destruct He as [(_ & _ & Hlc) Hup].
  assert (Hm : calmM (emit MqttLoop ;; feed_gps env)).
  { apply calm_bind; [apply calm_emit; reflexivity|].
    intros _. apply calm_feed_gps. }
  destruct (Hm wc) as (_ & _ & Hl1).
  set (w1 := snd ((emit MqttLoop ;; feed_gps env) wc)) in *.
  assert (H1 : LOCATION w1 = LOCATION ws) by congruence.
  assert (Hfin : LOCATION w' = LOCATION w1).
  { unfold loop_timer in Hl. destruct (due w1); [|congruence].
    destruct (publishJson env fuel w1) as [w2|] eqn:Hp; [|discriminate].
    injection Hl as <-. cbn [LOCATION set_t0].
    unfold publishJson in Hp.
    destruct (ensure_connected env fuel w1) as [w3|] eqn:He; [|discriminate].
    injection Hp as <-.
    apply ensure_connected_calm in He. destruct He as [(_ & _ & Hl3) _].
    destruct (publish_cycle_outcome env w3) as (_ & _ & _ & _ & _ & Hl4 & _).
    destruct (calm_collect env w3) as (_ & _ & Hl5). congruence. }
  rewrite Hfin, H1. exact Hs.
Qed.

Lemma loop_keeps_label_tidy_witness :
  exists w',
    loop (with_http (fun _ => Some " Roof  ") bench) 1 boot = Some w'
    /\ LOCATION w' = "Roof".
Proof.
  destruct (loop (with_http (fun _ => Some " Roof  ") bench) 1 boot)
    as [w'|] eqn:Hl; [|vm_compute in Hl; discriminate Hl].
  exists w'. split; [reflexivity|].
  destruct (loop_keeps_label_tidy _ _ _ _ Hl) as [_ [H|(arg & Ha & H)]].
  - split; [reflexivity | discriminate].
  - vm_compute in Hl. injection Hl as <-. reflexivity.
  - rewrite H. cbn in Ha. injection Ha as <-. reflexivity.
Defined.

(** ** Samples that are not numbers *)

Lemma plausible_finite t : plausible t = true -> F32.isfinite t = true.
Proof.
  destruct t as [s|s| |s m e]; try reflexivity.
  - destruct s; vm_compute; intros H; discriminate H.
  - vm_compute. intros H; discriminate H.
Qed.

Lemma filter_plausible_finite (l : list F32.t) :
  filter plausible (filter F32.isfinite l) = filter plausible l.
Proof.
  induction l as [|t l IH]; [reflexivity|]. cbn [filter].
  destruct (F32.isfinite t) eqn:Hf; cbn [filter]; rewrite IH.
  - reflexivity.
  - destruct (plausible t) eqn:Hp; [|reflexivity].
    apply plausible_finite in Hp. congruence.
Qed.

(** X10. A sample that is a NaN or an infinity fails the band test of line
    220 and is left out of the mean like an out-of-band one: the result of
    [readTemperatureC] is the mean of the in-band samples among the finite
    ones, so [NaN, 23.5, 24.1] gives 23.8, and when none of the three
    samples is a finite number the result is -127. *)
Theorem readTemperatureC_discards_nonfinite (env : Env) (w : World) :
  let s i := dallas_getTempC env (i + dallas_reads w) in
  (forall i, F32.isfinite (s i) = false -> plausible (s i) = false)
  /\ fst (readTemperatureC env w)
     = mean_of_plausible (filter F32.isfinite [s 0%nat; s 1%nat; s 2%nat])
  /\ ((forall i, (i < 3)%nat -> F32.isfinite (s i) = false) ->
      fst (readTemperatureC env w) = F32.of_int (-127))
  /\ fst (readTemperatureC
            (with_dallas
               (fun n => nth n [F32.NAN; F32.of_decimal 235 1;
                                F32.of_decimal 241 1] F32.NAN)
               bench)
            boot)
     = F32.of_decimal 238 1.
Proof.
  cbv zeta.
  assert (Hband : forall t, F32.isfinite t = false -> plausible t = false).
  { intros t Hf. destruct (plausible t) eqn:Hp; [|reflexivity].
    apply plausible_finite in Hp. congruence. }
  pose proof (readTemperatureC_run env w) as Hr. cbv zeta in Hr.
  assert (Hmean : fst (readTemperatureC env w)
                  = mean_of_plausible
                      (filter F32.isfinite
                         [dallas_getTempC env (0 + dallas_reads w);
                          dallas_getTempC env (1 + dallas_reads w);
                          dallas_getTempC env (2 + dallas_reads w)])).
  { rewrite Hr. cbn [fst]. unfold mean_of_plausible.
    now rewrite filter_plausible_finite. }
  split; [intros i; apply Hband|]. split; [exact Hmean|].
  split; [|vm_compute; reflexivity].
  intros H. rewrite Hmean. cbn [filter].
  rewrite (H 0%nat), (H 1%nat), (H 2%nat) by lia. reflexivity.
Qed.

(** ** The time stamp *)

Lemma length_zeros n : String.length (Clock.zeros n) = n.
Proof. induction n as [|n IH]; [reflexivity|]. cbn. now rewrite IH. Qed.

(** A number below [10 ^ k] has at most [k] digits, and at least one. *)
Lemma length_digits fuel :
  forall n k,
    0 <= n < 10 ^ Z.of_nat k -> (1 <= k <= fuel)%nat ->
    (1 <= String.length (Clock.digits fuel n) <= k)%nat.
Proof.
  induction fuel as [|fuel IH]; intros n k Hn Hk; [lia|].
  cbn [Clock.digits]. rewrite length_append. cbn [String.length].
  destruct (Z.ltb_spec n 10) as [Hlt|Hge]; [cbn [String.length]; lia|].
  destruct k as [|[|k]]; [lia | cbn in Hn; lia |].
  assert (Hdiv : 0 <= n / 10 < 10 ^ Z.of_nat (S k)).
  { split; [apply Z.div_pos; lia|].
    apply Z.div_lt_upper_bound; [lia|].
    replace (10 * 10 ^ Z.of_nat (S k)) with (10 ^ Z.of_nat (S (S k))); [lia|].
    rewrite (Nat2Z.inj_succ (S k)), Z.pow_succ_r; lia. }
  specialize (IH (n / 10) (S k) Hdiv). lia.
Qed.

(** Inside its width, [%0wd] prints exactly [w] characters. *)
Lemma length_pad0 w z :
  (1 <= w <= 10)%nat -> 0 <= z < 10 ^ Z.of_nat w ->
  String.length (Clock.pad0 w z) = w.
Proof.
  intros Hw Hz. unfold Clock.pad0.
  destruct (Z.ltb_spec z 0); [lia|].
  rewrite length_append, length_zeros, Z.abs_eq by lia.
  pose proof (length_digits 10 z w Hz). lia.
Qed.

Lemma escape_append a b :
  Json.escape (a ++ b) = Json.escape a ++ Json.escape b.
Proof.
  induction a as [|c a IH]; [reflexivity|].
  cbn [append Json.escape]. now rewrite IH, append_assoc.
Qed.

Lemma plain_append a b :
  Clock.plain a -> Clock.plain b -> Clock.plain (a ++ b).
Proof.
  unfold Clock.plain. intros Ha Hb. now rewrite escape_append, Ha, Hb.
Qed.

Lemma plain_digit n : Clock.plain (String (Clock.digit (n mod 10)) "").
Proof.
  assert (H : 0 <= n mod 10 < 10) by (apply Z.mod_pos_bound; lia).
  assert (C : n mod 10 = 0 \/ n mod 10 = 1 \/ n mod 10 = 2 \/ n mod 10 = 3
              \/ n mod 10 = 4 \/ n mod 10 = 5 \/ n mod 10 = 6
              \/ n mod 10 = 7 \/ n mod 10 = 8 \/ n mod 10 = 9) by lia.
  repeat destruct C as [C|C]; rewrite C; reflexivity.
Qed.

Lemma plain_digits fuel : forall n, Clock.plain (Clock.digits fuel n).
Proof.
  induction fuel as [|fuel IH]; intros n; [reflexivity|].
  cbn [Clock.digits]. apply plain_append; [|apply plain_digit].
  destruct (n <? 10); [reflexivity | apply IH].
Qed.

Lemma plain_zeros n : Clock.plain (Clock.zeros n).
Proof.
  induction n as [|n IH]; [reflexivity|].
  change (Clock.zeros (S n)) with ("0" ++ Clock.zeros n).
  apply plain_append; [reflexivity | exact IH].
Qed.

Lemma plain_pad0 w z : Clock.plain (Clock.pad0 w z).
Proof.
  unfold Clock.pad0. destruct (z <? 0).
  - apply plain_append; [reflexivity|].
    apply plain_append; [apply plain_zeros | apply plain_digits].
  - apply plain_append; [apply plain_zeros | apply plain_digits].
Qed.

Lemma plain_format t usec : Clock.plain (Clock.format t usec).
Proof.
  unfold Clock.format.
  repeat (apply plain_append; [first [apply plain_pad0 | reflexivity]|]).
  reflexivity.
Qed.

Lemma substring_whole s n :
  (String.length s <= n)%nat -> substring 0 n s = s.
Proof.
  revert n. induction s as [|c s IH]; intros [|n] H; cbn in *;
    try reflexivity; try lia.
  rewrite IH; [reflexivity | lia].
Qed.

Lemma length_substring s : forall n, (String.length (substring 0 n s) <= n)%nat.
Proof.
  induction s as [|c s IH]; intros [|n]; cbn; try lia.
  specialize (IH n). lia.
Qed.


Lemma length_format t usec :
  0 <= Clock.tm_year t + 1900 <= 9999 ->
  0 <= Clock.tm_mon t + 1 <= 99 ->
  0 <= Clock.tm_mday t <= 99 ->
  0 <= Clock.tm_hour t <= 99 ->
  0 <= Clock.tm_min t <= 99 ->
  0 <= Clock.tm_sec t <= 99 ->
  0 <= usec < 1000000 ->
  String.length (Clock.format t usec) = 32%nat.
Proof.
  intros. unfold Clock.format, Clock.TZ_OFFSET_STR.
  rewrite !length_append.
  rewrite (length_pad0 4), !(length_pad0 2), (length_pad0 6);
    cbn; lia.
Qed.

(** X11. For a time [gmtime] breaks down within its ranges (years 0 to
    9999) and microseconds below one million, the stamp is the whole text
    of the format, never cut by the 40-byte buffer: 32 characters, a
    4-digit year, 2-digit month, day, hour, minute and second, 6 digits of
    microseconds and the fixed suffix -05:00; and it holds no character
    the JSON writer would escape. *)
Theorem iso8601LocalNow_layout (gmtime : Z -> option Clock.tm)
    (tv : Clock.timeval) (t : Clock.tm) :
  gmtime (Clock.tv_sec tv + Clock.TZ_OFFSET_SEC) = Some t ->
  Clock.in_range t ->
  0 <= Clock.tv_usec tv < 1000000 ->
  let ts := Clock.iso8601LocalNow gmtime tv in
  ts = Clock.pad0 4 (Clock.tm_year t + 1900) ++ "-"
       ++ Clock.pad0 2 (Clock.tm_mon t + 1) ++ "-"
       ++ Clock.pad0 2 (Clock.tm_mday t) ++ "T"
       ++ Clock.pad0 2 (Clock.tm_hour t) ++ ":"
       ++ Clock.pad0 2 (Clock.tm_min t) ++ ":"
       ++ Clock.pad0 2 (Clock.tm_sec t) ++ "."
       ++ Clock.pad0 6 (Clock.tv_usec tv) ++ "-05:00"
  /\ String.length ts = 32%nat
  /\ String.length (Clock.pad0 4 (Clock.tm_year t + 1900)) = 4%nat
  /\ String.length (Clock.pad0 2 (Clock.tm_mon t + 1)) = 2%nat
  /\ String.length (Clock.pad0 2 (Clock.tm_mday t)) = 2%nat
  /\ String.length (Clock.pad0 2 (Clock.tm_hour t)) = 2%nat
  /\ String.length (Clock.pad0 2 (Clock.tm_min t)) = 2%nat
  /\ String.length (Clock.pad0 2 (Clock.tm_sec t)) = 2%nat
  /\ String.length (Clock.pad0 6 (Clock.tv_usec tv)) = 6%nat
  /\ Json.escape ts = ts.
Proof.
  intros Hg (Hy & Hmo & Hd & Hh & Hmi & Hs) Hu. cbv zeta.
  assert (Hlen : String.length (Clock.format t (Clock.tv_usec tv)) = 32%nat)
    by (apply length_format; lia).
  assert (Hts : Clock.iso8601LocalNow gmtime tv
                = Clock.format t (Clock.tv_usec tv)).
  { unfold Clock.iso8601LocalNow, Clock.snprintf. rewrite Hg.
    apply substring_whole. rewrite Hlen. cbn. lia. }
  rewrite Hts. split; [reflexivity|]. split; [exact Hlen|].
  rewrite (length_pad0 4), !(length_pad0 2), (length_pad0 6) by (cbn; lia).
  repeat (split; [reflexivity|]). apply plain_format.
Qed.

Lemma iso8601LocalNow_layout_witness :
  Clock.iso8601LocalNow bench_gmtime (bench_time 11250)
  = "2025-01-01T00:00:11.250000-05:00".
Proof.
  destruct (iso8601LocalNow_layout bench_gmtime (bench_time 11250)
              {| Clock.tm_sec := 11; Clock.tm_min := 0; Clock.tm_hour := 0;
                 Clock.tm_mday := 1; Clock.tm_mon := 0;
                 Clock.tm_year := 125 |})
    as (H & _).
  - reflexivity.
  - unfold Clock.in_range. cbn. lia.
  - cbn. lia.
  - rewrite H. reflexivity.
Defined.

(** X12. When [gmtime] returns the null pointer the zeroed [struct tm] is
    printed as it is: the stamp carries the date 1900-01-00 and the time
    00:00:00, with the microseconds of the clock, and no error is
    signalled. *)
Theorem iso8601LocalNow_without_gmtime (gmtime : Z -> option Clock.tm)
    (tv : Clock.timeval) :
  gmtime (Clock.tv_sec tv + Clock.TZ_OFFSET_SEC) = None ->
  0 <= Clock.tv_usec tv < 1000000 ->
  Clock.iso8601LocalNow gmtime tv
  = "1900-01-00T00:00:00." ++ Clock.pad0 6 (Clock.tv_usec tv) ++ "-05:00".
Proof.
  intros Hg Hu. unfold Clock.iso8601LocalNow, Clock.snprintf. rewrite Hg.
  rewrite substring_whole.
  - reflexivity.
  - rewrite length_format; cbn; lia.
Qed.

Lemma iso8601LocalNow_without_gmtime_witness :
  Clock.iso8601LocalNow (fun _ => None) (bench_time 11250)
  = "1900-01-00T00:00:00.250000-05:00".
Proof.
  rewrite (iso8601LocalNow_without_gmtime (fun _ => None) (bench_time 11250)).
  - reflexivity.
  - reflexivity.
  - cbn. lia.
Defined.



(** ** The label in the EEPROM *)

Lemma append_nil_r (s : string) : s ++ "" = s.
Proof. induction s as [|c s IH]; [reflexivity|]. cbn. now rewrite IH. Qed.

Lemma strncpy_chars s :
  forall dst,
    forallb (fun c => negb (Ascii.eqb c NUL)) (chars s) = true ->
    (String.length s <= List.length dst)%nat ->
    Store.strncpy (String.length s) (chars s) dst =
    (chars s ++ skipn (String.length s) dst)%list.
Proof.
  unfold chars. induction s as [|c s IH]; intros dst Hn Hl.
  - reflexivity.
  - destruct dst as [|d dst]; [cbn in Hl; lia|].
    cbn [String.length list_ascii_of_string forallb Store.strncpy app skipn]
      in *.
    apply andb_prop in Hn. destruct Hn as [Hc Hs].
    destruct (Ascii.eqb c NUL); [discriminate Hc|].
    f_equal. apply IH; [exact Hs | cbn in Hl; lia].
Qed.

Lemma poke_app a i c b :
  poke (List.length a + i) c (a ++ b) = (a ++ poke i c b)%list.
Proof.
  induction a as [|x a IH]; [reflexivity|].
  cbn [List.length Nat.add app poke]. now rewrite IH.
Qed.

Lemma skipn_repeat (x : ascii) n m :
  (n <= m)%nat -> skipn n (repeat x m) = repeat x (m - n).
Proof.
  revert m. induction n as [|n IH]; intros m H.
  - now rewrite Nat.sub_0_r.
  - destruct m as [|m]; [lia|]. cbn [repeat skipn Nat.sub]. apply IH. lia.
Qed.

Lemma substring_no_NUL s :
  forall n,
    forallb (fun c => negb (Ascii.eqb c NUL)) (chars s) = true ->
    forallb (fun c => negb (Ascii.eqb c NUL)) (chars (substring 0 n s)) = true.
Proof.
  unfold chars. induction s as [|c s IH]; intros [|n] H; try reflexivity.
  cbn [substring list_ascii_of_string forallb] in *.
  apply andb_prop in H. destruct H as [Hc Hs]. rewrite Hc. now apply IH.
Qed.

(** The array [saveLocationToEEPROM] hands to [EEPROM.put]: the first 31
    characters of the label, then zero bytes. *)
Lemma saved_buffer loc :
  forallb (fun c => negb (Ascii.eqb c NUL)) (chars loc) = true ->
  Store.toCharArray (substring 0 31 loc) 32 (repeat NUL 32) =
  (chars (substring 0 31 loc)
     ++ repeat NUL (32 - String.length (substring 0 31 loc)))%list.
Proof.
  intros Hn. pose proof (length_substring loc 31) as Hl.
  pose proof (substring_no_NUL loc 31 Hn) as Hs.
  set (s := substring 0 31 loc) in *.
  unfold Store.toCharArray.
  change (32 =? 0)%nat with false. change (32 - 1)%nat with 31%nat.
  cbv iota.
  destruct (String.length s =? 0)%nat eqn:He.
  - apply Nat.eqb_eq in He. destruct s; [reflexivity | discriminate He].
  - rewrite Nat.min_r by lia.
    rewrite strncpy_chars by (rewrite ?repeat_length; auto; lia).
    rewrite skipn_repeat by lia.
    assert (Hk : exists k, (32 - String.length s)%nat = S k)
      by (exists (31 - String.length s)%nat; lia).
    destruct Hk as [k Hk]. rewrite Hk.
    rewrite <- (Nat.add_0_r (String.length s)).
    rewrite <- length_chars, poke_app. reflexivity.
Qed.

Lemma saved_store loc rom :
  forallb (fun c => negb (Ascii.eqb c NUL)) (chars loc) = true ->
  List.length rom = Store.EEPROM_SIZE ->
  Store.saveLocationToEEPROM loc rom =
  (chars (substring 0 31 loc)
     ++ repeat NUL (32 - String.length (substring 0 31 loc))
     ++ skipn 32 rom)%list.
Proof.
  intros Hn Hr. pose proof (length_substring loc 31) as Hl.
  unfold Store.saveLocationToEEPROM, Store.LOCATION_MAX,
    Store.EEPROM_ADDR_LOC, Store.EEPROM_SIZE in *.
  cbn [Nat.sub]. rewrite (saved_buffer loc Hn).
  unfold Store.put.
  rewrite length_app, length_chars, repeat_length, Hr.
  replace (String.length (substring 0 31 loc)
           + (32 - String.length (substring 0 31 loc)))%nat with 32%nat by lia.
  cbn [Nat.add Nat.leb firstn app]. now rewrite <- app_assoc.
Qed.

(** X14. What [saveLocationToEEPROM] stores, whatever the label and the
    former content: the first 31 characters of the label as a terminated
    C string in the first 32 bytes, the bytes after the label all zero;
    the other 96 bytes of the store are not touched. *)
Theorem saveLocationToEEPROM_stores_prefix (loc : string) (rom : list ascii) :
  forallb (fun c => negb (Ascii.eqb c NUL)) (chars loc) = true ->
  List.length rom = Store.EEPROM_SIZE ->
  let rom' := Store.saveLocationToEEPROM loc rom in
  c_str (firstn 32 rom') = Some (substring 0 31 loc)
  /\ List.length rom' = Store.EEPROM_SIZE
  /\ skipn 32 rom' = skipn 32 rom
  /\ firstn 32 rom' =
     (chars (substring 0 31 loc)
        ++ repeat NUL (32 - String.length (substring 0 31 loc)))%list.
Proof.
  intros Hn Hr. cbv zeta. rewrite (saved_store loc rom Hn Hr).
  pose proof (length_substring loc 31) as Hl.
  pose proof (substring_no_NUL loc 31 Hn) as Hs.
  set (s := substring 0 31 loc) in *.
  assert (Hb : List.length (chars s ++ repeat NUL (32 - String.length s)) = 32%nat).
  { rewrite length_app, length_chars, repeat_length. lia. }
  assert (Hf : firstn 32 (chars s ++ repeat NUL (32 - String.length s)
                            ++ skipn 32 rom)
               = (chars s ++ repeat NUL (32 - String.length s))%list).
  { rewrite app_assoc, firstn_app, Hb, Nat.sub_diag, firstn_all2 by lia.
    cbn [firstn]. apply app_nil_r. }
  rewrite Hf. split; [|split; [|split]].
  - rewrite (c_str_app s _ Hs).
    destruct (32 - String.length s)%nat eqn:Hd; [lia|].
    cbn [repeat c_str Ascii.eqb]. cbn. now rewrite append_nil_r.
  - rewrite app_assoc, length_app, Hb, length_skipn, Hr.
    unfold Store.EEPROM_SIZE. lia.
  - rewrite app_assoc, skipn_app, Hb, Nat.sub_diag, skipn_all2 by lia.
    reflexivity.
  - reflexivity.
Qed.

Lemma saveLocationToEEPROM_stores_prefix_witness :
  c_str (firstn 32 (Store.saveLocationToEEPROM
                      "A label of more than thirty-one characters"
                      Store.erased))
  = Some "A label of more than thirty-one".
Proof.
  apply (saveLocationToEEPROM_stores_prefix
           "A label of more than thirty-one characters" Store.erased);
    reflexivity.
Defined.

(** Loading what was just saved. *)
Lemma load_after_save (env : Env) (loc old : string)
    (rom : list ascii) :
  Store.storable loc = true ->
  List.length rom = Store.EEPROM_SIZE ->
  Store.loadLocationFromEEPROM env (Store.saveLocationToEEPROM loc rom) old
  = Some loc.
Proof.
  unfold Store.storable. intros Hst Hr.
  destruct (chars loc) as [|c cs] eqn:Hc; [discriminate Hst|].
  apply andb_prop in Hst. destruct Hst as [Hst Hn].
  apply andb_prop in Hst. destruct Hst as [Hst Hx].
  apply andb_prop in Hst. destruct Hst as [Hl Hsp].
  apply Nat.leb_le in Hl. rewrite <- Hc in Hn.
  rewrite (saved_store loc rom Hn Hr).
  rewrite (substring_whole loc 31) by lia.
  unfold Store.loadLocationFromEEPROM, Store.get, Store.LOCATION_MAX,
    Store.EEPROM_ADDR_LOC.
  rewrite fresh_length.
  assert (Hlen : List.length
                   (chars loc ++ repeat NUL (32 - String.length loc)
                      ++ skipn 32 rom) = 128%nat).
  { rewrite !length_app, length_chars, repeat_length, length_skipn, Hr.
    unfold Store.EEPROM_SIZE. lia. }
  rewrite Hlen. change (0 + 32 <=? 128)%nat with true. cbv iota.
  change (32 - 1)%nat with 31%nat. cbn [skipn].
  assert (Hb : List.length (chars loc ++ repeat NUL (32 - String.length loc))
               = 32%nat).
  { rewrite length_app, length_chars, repeat_length. lia. }
  rewrite app_assoc, firstn_app, Hb, Nat.sub_diag, firstn_all2 by lia.
  cbn [firstn]. rewrite app_nil_r.
  replace (32 - String.length loc)%nat
    with ((31 - String.length loc) + 1)%nat by lia.
  assert (Hk : exists k, (31 - String.length loc)%nat = S k)
    by (exists (30 - String.length loc)%nat; lia).
  destruct Hk as [k Hk]. rewrite Hk.
  replace 31%nat with (List.length (chars loc) + S k)%nat
    by (rewrite length_chars; lia).
  rewrite poke_app, repeat_app. cbn [repeat].
  assert (Hp : forall j, poke j SPACE (repeat NUL j ++ [NUL])
                         = (repeat NUL j ++ [SPACE])%list).
  { induction j as [|j IH]; [reflexivity|]. cbn [repeat app poke].
    now rewrite IH. }
  change (NUL :: repeat NUL k) with (repeat NUL (S k)). rewrite Hp.
  cbn [repeat app]. rewrite Hc. cbn [app nth].
  apply negb_true_iff in Hx, Hsp. rewrite Hx. cbn [app nth].
  rewrite Hsp. cbn [negb].
  match goal with
  | |- c_str (c :: (cs ++ ?r))%list = _ =>
      change (c_str ((c :: cs) ++ r)%list = Some loc)
  end.
  rewrite <- Hc. rewrite (c_str_app loc _ Hn). cbn [c_str].
  change (Ascii.eqb NUL NUL) with true. cbn [option_map].
  now rewrite append_nil_r.
Qed.

Lemma storable_no_NUL loc :
  Store.storable loc = true ->
  forallb (fun c => negb (Ascii.eqb c NUL)) (chars loc) = true.
Proof.
  unfold Store.storable. destruct (chars loc) as [|c cs]; [discriminate|].
  intros H. apply andb_prop in H. apply H.
Qed.

Lemma length_saved loc rom :
  forallb (fun c => negb (Ascii.eqb c NUL)) (chars loc) = true ->
  List.length rom = Store.EEPROM_SIZE ->
  List.length (Store.saveLocationToEEPROM loc rom) = Store.EEPROM_SIZE.
Proof.
  intros Hn Hr. rewrite (saved_store loc rom Hn Hr).
  pose proof (length_substring loc 31).
  rewrite !length_app, length_chars, repeat_length, length_skipn, Hr.
  unfold Store.EEPROM_SIZE. lia.
Qed.

(** X15. A label of one to thirty characters that holds no zero byte and
    starts with neither a space nor the byte 0xFF comes back from the
    store as it was saved, whatever the store held before and whatever
    label is current at the time of the load; and saving it once more
    leaves the store as it is. *)
Theorem saved_label_loads_back (env : Env) (loc old : string)
    (rom : list ascii) :
  Store.storable loc = true ->
  List.length rom = Store.EEPROM_SIZE ->
  let rom' := Store.saveLocationToEEPROM loc rom in
  Store.loadLocationFromEEPROM env rom' old = Some loc
  /\ Store.saveLocationToEEPROM loc rom' = rom'.
Proof.
  intros Hst Hr. cbv zeta. split; [now apply load_after_save|].
  pose proof (storable_no_NUL loc Hst) as Hn.
  rewrite (saved_store loc _ Hn (length_saved loc rom Hn Hr)).
  rewrite (saved_store loc rom Hn Hr).
  pose proof (length_substring loc 31) as Hl.
  set (s := substring 0 31 loc) in *.
  assert (Hb : List.length (chars s ++ repeat NUL (32 - String.length s))
               = 32%nat).
  { rewrite length_app, length_chars, repeat_length. lia. }
  do 2 f_equal.
  rewrite app_assoc, skipn_app, Hb, Nat.sub_diag, skipn_all2 by lia.
  reflexivity.
Qed.

Lemma saved_label_loads_back_witness :
  Store.loadLocationFromEEPROM bench
    (Store.saveLocationToEEPROM "Roof"
       (Store.saveLocationToEEPROM "Laboratory 2, north wall" Store.erased))
    "Device test"
  = Some "Roof".
Proof.
  apply (saved_label_loads_back bench "Roof" "Device test"); reflexivity.
Defined.

(** X16. A store whose first byte is 0xFF, as after an erase of the
    flash, gives no label: [loadLocationFromEEPROM] leaves [LOCATION] as
    it is. *)
Theorem erased_store_keeps_label (env : Env) (rom : list ascii)
    (old : string) :
  List.length rom = Store.EEPROM_SIZE ->
  nth 0 rom NUL = Store.xFF ->
  Store.loadLocationFromEEPROM env rom old = Some old.
Proof.
  intros Hr Hx.
  unfold Store.loadLocationFromEEPROM, Store.get, Store.LOCATION_MAX,
    Store.EEPROM_ADDR_LOC.
  rewrite fresh_length, Hr. change (0 + 32 <=? Store.EEPROM_SIZE)%nat with true.
  cbv iota. change (32 - 1)%nat with 31%nat. cbn [skipn].
  destruct rom as [|b rom]; [discriminate Hr|]. cbn [nth] in Hx. subst b.
  cbn [firstn poke nth].
  change (Ascii.eqb Store.xFF Store.xFF) with true. cbn [poke nth].
  reflexivity.
Qed.

Lemma erased_store_keeps_label_witness :
  Store.loadLocationFromEEPROM bench Store.erased "Device test"
  = Some "Device test".
Proof.
  apply (erased_store_keeps_label bench Store.erased "Device test");
    reflexivity.
Defined.

Lemma isspace_SPACE : isspace SPACE = true.
Proof. reflexivity. Qed.

(** X17. A label set through the web form is there again after a restart:
    when the trimmed argument has at most thirty characters, none of them
    a zero byte, and does not start with the byte 0xFF, loading the store
    that [handleSet] wrote gives the label [handleSet] set. *)
Theorem handleSet_label_survives_restart (env : Env) (arg old : string)
    (w : World) (rom : list ascii) :
  (1 <= String.length (trim arg) <= 30)%nat ->
  forallb (fun c => negb (Ascii.eqb c NUL)) (chars (trim arg)) = true ->
  negb (Ascii.eqb (hd NUL (chars (trim arg))) Store.xFF) = true ->
  List.length rom = Store.EEPROM_SIZE ->
  let w' := snd (handleSet arg w) in
  LOCATION w' = trim arg
  /\ trace w' = (trace w ++ [EepromPut (LOCATION w')])%list
  /\ Store.loadLocationFromEEPROM env
       (Store.saveLocationToEEPROM (LOCATION w') rom) old
     = Some (LOCATION w').
Proof.
  intros Hl Hn Hx Hr. cbv zeta.
  destruct (handleSet_cases arg w) as [[He _]|(Ht & Hloc & Htr)].
  { rewrite He in Hl. cbn in Hl. lia. }
  rewrite Hloc. split; [reflexivity|]. split.
  { rewrite Htr, substring_whole by lia. reflexivity. }
  apply load_after_save; [|exact Hr].
  unfold Store.storable.
  pose proof (trim_right_clean _ (trim_left_clean arg)) as Hcl.
  fold (trim arg) in Hcl.
  destruct (trim arg) as [|c s] eqn:E; [cbn in Hl; lia|].
  unfold chars in *. cbn [list_ascii_of_string hd starts_clean] in *.
  rewrite Hn, Hx.
  assert (Hsp : Ascii.eqb c SPACE = false).
  { destruct (Ascii.eqb_spec c SPACE) as [->|]; [|reflexivity].
    rewrite isspace_SPACE in Hcl. discriminate Hcl. }
  rewrite Hsp. cbn [negb]. rewrite !andb_true_r. apply Nat.leb_le. lia.
Qed.

Lemma handleSet_label_survives_restart_witness :
  Store.loadLocationFromEEPROM bench
    (Store.saveLocationToEEPROM
       (LOCATION (snd (handleSet "  Roof " boot))) Store.erased)
    "Device test"
  = Some "Roof".
Proof.
  apply (handleSet_label_survives_restart bench "  Roof " "Device test" boot
           Store.erased);
    [split; apply Nat.leb_le; reflexivity | reflexivity ..].
Defined.

(** ** Start-up: network and time *)

Lemma sub_step t t0 d e :
  UInt32.sub t t0 = e -> 0 <= e + d < UInt32.modulus ->
  UInt32.sub (UInt32.add t d) t0 = e + d.
Proof.
  unfold UInt32.sub, UInt32.add, UInt32.wrap, UInt32.modulus.
  intros He Hr. rewrite Zminus_mod_idemp_l.
  replace (t + d - t0) with ((t - t0) + d) by lia.
  rewrite <- Zplus_mod_idemp_l, He. now apply Z.mod_small.
Qed.

Lemma waitForNtp_loop_bound time max_ms t0 fuel :
  forall b k0,
    UInt32.sub (Boot.clock b) t0 = 200 * k0 ->
    0 <= k0 ->
    max_ms <= UInt32.modulus - 200 ->
    max_ms <= 200 * (k0 + Z.of_nat fuel) ->
    exists b' n,
      Boot.waitForNtp_loop time fuel max_ms t0 b = Some b'
      /\ UInt32.sub (Boot.clock b') t0 = 200 * (k0 + Z.of_nat n)
      /\ (n = 0%nat \/ 200 * (k0 + Z.of_nat n) < max_ms + 200)
      /\ Boot.calls b' = (Boot.calls b ++ repeat (Boot.Delay 200) n)%list
      /\ (forall j, (j < n)%nat ->
            time (Boot.time_calls b + j)%nat <= 1700000000)
      /\ (1700000000 < time (Boot.time_calls b + n)%nat
          \/ max_ms <= 200 * (k0 + Z.of_nat n)).
Proof.
  induction fuel as [|fuel IH]; intros b k0 Hs Hk Hm Hf;
    cbn [Boot.waitForNtp_loop]; rewrite Hs;
    destruct (Z.ltb_spec (200 * k0) max_ms) as [Hlt|Hge].
  - lia.
  - exists b, 0%nat. rewrite Z.add_0_r, app_nil_r.
    repeat split; auto; intros; lia.
  - destruct (Z.ltb_spec 1700000000 (time (Boot.time_calls b))) as [Hv|Hn].
    + exists (Boot.asked_time b), 0%nat.
      rewrite Z.add_0_r, Nat.add_0_r, app_nil_r.
      cbn [Boot.clock Boot.calls Boot.asked_time].
      repeat split; auto; intros; lia.
    + destruct (IH (Boot.delay 200 (Boot.asked_time b)) (k0 + 1))
        as (b' & n & Hl & Hc & Hb & Hcalls & Hpre & Hpost);
        try lia.
      { cbn [Boot.clock Boot.delay Boot.log Boot.asked_time].
        replace (200 * (k0 + 1)) with (200 * k0 + 200) by lia.
        apply sub_step; [exact Hs | unfold UInt32.modulus in *; lia]. }
      exists b', (S n). split; [exact Hl|].
      cbn [Boot.time_calls Boot.calls Boot.delay Boot.log Boot.asked_time]
        in *.
      replace (k0 + Z.of_nat (S n)) with (k0 + 1 + Z.of_nat n) by lia.
      split; [exact Hc|]. split.
      { right. destruct Hb as [->|Hb]; [|exact Hb].
        rewrite Z.add_0_r. lia. }
      split; [rewrite Hcalls, <- app_assoc; reflexivity|]. split.
      * intros [|j] Hj; [now rewrite Nat.add_0_r|].
        replace (Boot.time_calls b + S j)%nat
          with (S (Boot.time_calls b) + j)%nat by lia.
        apply Hpre. lia.
      * replace (Boot.time_calls b + S n)%nat
          with (S (Boot.time_calls b) + n)%nat by lia.
        exact Hpost.
  - exists b, 0%nat. rewrite Z.add_0_r, app_nil_r.
    repeat split; auto; intros; lia.
Qed.

(** X18. [waitForNtp(max_ms)] returns for every [max_ms] up to
    2^32 - 200: it polls the clock of the C library once per pass, waits
    200 ms after each poll that finds no valid time, and leaves at the
    first poll that finds one or once [max_ms] ms are over, having waited
    less than [max_ms + 200] ms in all; with a valid time at entry it does
    not wait at all. *)
Theorem waitForNtp_bounded (time : nat -> Z) (fuel : nat) (max_ms : Z)
    (b : Boot.Board) :
  0 <= max_ms <= UInt32.modulus - 200 ->
  max_ms <= 200 * Z.of_nat fuel ->
  exists b' n,
    Boot.waitForNtp time fuel max_ms b = Some b'
    /\ UInt32.sub (Boot.clock b') (Boot.clock b) = 200 * Z.of_nat n
    /\ 200 * Z.of_nat n < max_ms + 200
    /\ Boot.calls b' =
       (Boot.calls b
          ++ Boot.ConfigTime 0 0 "pool.ntp.org" "time.nist.gov"
          :: repeat (Boot.Delay 200) n)%list
    /\ (forall j, (j < n)%nat ->
          time (Boot.time_calls b + j)%nat <= 1700000000)
    /\ (1700000000 < time (Boot.time_calls b + n)%nat
        \/ max_ms <= 200 * Z.of_nat n).
Proof.
  intros Hm Hf. unfold Boot.waitForNtp.
  set (b0 := Boot.log (Boot.ConfigTime 0 0 "pool.ntp.org" "time.nist.gov") b).
  destruct (waitForNtp_loop_bound time max_ms (Boot.clock b0) fuel b0 0)
    as (b' & n & Hl & Hc & Hb & Hcalls & Hpre & Hpost); try lia.
  { unfold UInt32.sub. now rewrite Z.sub_diag. }
  exists b', n. split; [exact Hl|]. split; [exact Hc|]. split.
  { destruct Hb as [->|Hb]; lia. }
  split; [|split; [exact Hpre | exact Hpost]].
  rewrite Hcalls. unfold b0. cbn [Boot.calls Boot.log].
  now rewrite <- app_assoc.
Qed.

Lemma waitForNtp_bounded_witness :
  exists b' n,
    Boot.waitForNtp (fun _ => 0) 50 10000 Boot.reset = Some b'
    /\ 200 * Z.of_nat n < 10200
    /\ UInt32.sub (Boot.clock b') 0 = 200 * Z.of_nat n.
Proof.
  destruct (waitForNtp_bounded (fun _ => 0) 50 10000 Boot.reset)
    as (b' & n & Hl & Hc & Hb & _).
  - unfold UInt32.modulus. lia.
  - lia.
  - exists b', n. split; [exact Hl|]. split; [exact Hb | exact Hc].
Defined.

Lemma wifiConnect_loop_waits wifi_connected k :
  forall fuel b,
    (forall j, (j < k)%nat ->
       wifi_connected (Boot.status_calls b + j)%nat = false) ->
    wifi_connected (Boot.status_calls b + k)%nat = true ->
    (k <= fuel)%nat ->
    exists b',
      Boot.wifiConnect_loop wifi_connected fuel b = Some b'
      /\ Boot.calls b' = (Boot.calls b ++ List.concat (repeat Boot.dot k))%list
      /\ Boot.clock b' =
         Nat.iter k (fun t => UInt32.add t 500) (Boot.clock b).
Proof.
  induction k as [|k IH]; intros fuel b Hr Ha Hf.
  - rewrite Nat.add_0_r in Ha. exists (Boot.asked_status b).
    destruct fuel; cbn [Boot.wifiConnect_loop]; rewrite Ha;
      cbn [Boot.calls Boot.clock Boot.asked_status repeat List.concat
           Nat.iter];
      rewrite app_nil_r; auto.
  - destruct fuel as [|fuel]; [lia|]. cbn [Boot.wifiConnect_loop].
    assert (H0 : wifi_connected (Boot.status_calls b) = false).
    { rewrite <- (Nat.add_0_r (Boot.status_calls b)). apply Hr. lia. }
    rewrite H0.
    destruct (IH fuel (Boot.log (Boot.Print ".")
                         (Boot.delay 500 (Boot.asked_status b))))
      as (b' & Hl & Hc & Hn).
    + intros j Hj.
      cbn [Boot.status_calls Boot.log Boot.delay Boot.asked_status].
      replace (S (Boot.status_calls b) + j)%nat
        with (Boot.status_calls b + S j)%nat by lia.
      apply Hr. lia.
    + cbn [Boot.status_calls Boot.log Boot.delay Boot.asked_status].
      now replace (S (Boot.status_calls b) + k)%nat
        with (Boot.status_calls b + S k)%nat by lia.
    + lia.
    + exists b'. split; [exact Hl|]. split.
      * rewrite Hc.
        cbn [Boot.calls Boot.log Boot.delay Boot.asked_status repeat
             List.concat].
        unfold Boot.dot at 2. now rewrite <- !app_assoc.
      * rewrite Hn, Nat.iter_succ_r. reflexivity.
Qed.

(** X19. [wifiConnect] returns at the first poll that finds the station
    connected: after [k] polls that did not, it has waited [k] times
    500 ms and printed [k] dots between its two messages, and nothing
    else. *)
Theorem wifiConnect_waits (wifi_connected : nat -> bool) (localIP : string)
    (fuel k : nat) (b : Boot.Board) :
  (forall j, (j < k)%nat ->
     wifi_connected (Boot.status_calls b + j)%nat = false) ->
  wifi_connected (Boot.status_calls b + k)%nat = true ->
  (k <= fuel)%nat ->
  exists b',
    Boot.wifiConnect wifi_connected localIP fuel b = Some b'
    /\ Boot.calls b' =
       (Boot.calls b
          ++ [ Boot.WifiMode "WIFI_STA";
               Boot.WifiBegin Boot.WIFI_SSID Boot.WIFI_PASS;
               Boot.Printf ("Conectando WiFi a " ++ quoted "%s")
                 Boot.WIFI_SSID ]
          ++ List.concat (repeat Boot.dot k)
          ++ [Boot.Printf "WiFi OK: %s" localIP])%list
    /\ Boot.clock b' = Nat.iter k (fun t => UInt32.add t 500) (Boot.clock b).
Proof.
  intros Hr Ha Hf. unfold Boot.wifiConnect.
  match goal with
  | |- context [Boot.wifiConnect_loop _ _ ?b0] =>
      destruct (wifiConnect_loop_waits wifi_connected k fuel b0 Hr Ha Hf)
        as (b' & Hl & Hc & Hn)
  end.
  rewrite Hl. eexists. split; [reflexivity|].
  cbn [Boot.calls Boot.clock Boot.log] in *. rewrite Hc, Hn.
  split; [|reflexivity]. now rewrite <- !app_assoc.
Qed.

Lemma wifiConnect_waits_witness :
  exists b',
    Boot.wifiConnect (fun n => (2 <=? n)%nat) "192.168.1.7" 2 Boot.reset
    = Some b'
    /\ Boot.clock b' = 1000.
Proof.
  destruct (wifiConnect_waits (fun n => (2 <=? n)%nat) "192.168.1.7" 2 2
              Boot.reset)
    as (b' & Hl & _ & Hn).
  - intros [|[|j]] Hj; [reflexivity | reflexivity | lia].
  - reflexivity.
  - lia.
  - exists b'. split; [exact Hl|]. rewrite Hn. reflexivity.
Defined.
